(** * Customer Account authentication: OAuth 2.0 + PKCE token lifecycle

    A shallow embedding of the authentication core of the storefront:
    [app/lib/customer-auth.ts], [app/lib/customer-session.ts],
    [app/lib/customer-guards.ts] and the routes
    [account.authorize.callback.tsx] and [account.logout.tsx].

    Conventions of the embedding.
    - An [async] function is a computation in the monad [M]: it threads the
      request's world (session data, number of clock readings, log of the
      outbound [fetch] calls) and either returns or throws.
    - What the JavaScript runtime provides and the repository does not define
      ([Date.now], [fetch], [atob], [JSON.parse], [crypto.subtle.digest],
      [TextEncoder], the [URL] parser, string-to-number coercion) is a field
      of the record [Runtime]; every definition is parametric in it.
    - Numbers are integers ([Z]): timestamps are whole milliseconds.
    - The TypeScript casts of [response.json()] are taken at their word: a
      body either is not JSON or decodes to the declared interface.
    - [console.error] is not modelled. *)

From Stdlib Require Import ZArith String Ascii List Bool Lia.
From Stdlib Require Import Strings.Byte DecimalString.
From stdpp Require Import gmap strings.
Import ListNotations.

Set Warnings "-register-all".

Local Open Scope Z_scope.
Local Open Scope string_scope.

(** ** JavaScript values held by the session *)

(** The session cookie holds what the code writes into it: strings (tokens,
    verifier, state, nonce) and numbers (the expiry timestamp).  A key that is
    not set reads as [undefined], here [None]. *)
Inductive value : Type :=
| VStr (s : string)
| VNum (n : Z).

(** Parsed JSON, as [JSON.parse] returns it. *)
Inductive json : Type :=
| JNull
| JBool (b : bool)
| JNum (n : Z)
| JStr (s : string)
| JArr (items : list json)
| JObj (props : list (string * json)).

Definition str_truthy (s : string) : bool :=
  match s with EmptyString => false | String _ _ => true end.

(** JavaScript truthiness of a session value: the empty string and [0] are falsy. *)
Definition truthy (v : value) : bool :=
  match v with
  | VStr s => str_truthy s
  | VNum n => negb (n =? 0)%Z
  end.

(** Truthiness of a possibly [undefined] session value. *)
Definition truthy_opt (o : option value) : bool :=
  match o with Some v => truthy v | None => false end.

(** Truthiness of a possibly [undefined]/[null] string. *)
Definition truthy_str (o : option string) : bool :=
  match o with Some s => str_truthy s | None => false end.

(** [a || b] on possibly undefined strings. *)
Definition or_str (a b : option string) : option string :=
  if truthy_str a then a else b.

(** Decimal rendering of an integer, as in a template literal. *)
Definition Number_toString (n : Z) : string :=
  NilZero.string_of_int (Z.to_int n).

(** ** Errors and the runtime *)

Inductive exn : Type :=
| Error (message : string)              (* [new Error(message)] *)
| TypeError (message : string)          (* property of null, invalid URL, failed fetch *)
| SyntaxError                           (* [JSON.parse] on a malformed text *)
| InvalidCharacterError                 (* [atob] on a malformed text *)
| ThrownRedirect (location : string).   (* [throw redirect(location)] *)

Record FetchRequest : Type := {
  fr_url : string;
  fr_method : string;
  fr_headers : list (string * string);
  fr_body : list (string * string)
}.

Record Response : Type := {
  ok : bool;
  status : Z;
  statusText : string;
  body : string
}.

Inductive FetchResult : Type :=
| Rejected (e : exn)
| Resolved (r : Response).

Record OpenIDConfiguration : Type := {
  authorization_endpoint : string;
  token_endpoint : string;
  end_session_endpoint : string;
  jwks_uri : string;
  issuer : string
}.

Record AccessTokenResponse : Type := {
  access_token : string;
  expires_in : Z;
  id_token : string;
  refresh_token : string
}.

(** [Omit<AccessTokenResponse, 'id_token'>] *)
Record RefreshedTokenResponse : Type := {
  r_access_token : string;
  r_expires_in : Z;
  r_refresh_token : string
}.

Record Runtime : Type := {
  (** the [n]-th reading of [Date.now()] during the request *)
  clock : nat -> Z;
  (** the outcome of the [n]-th [fetch] of the request *)
  network : nat -> FetchRequest -> FetchResult;
  (** [atob]; [None] when it throws *)
  atob : string -> option string;
  (** [JSON.parse]; [None] when it throws *)
  JSON_parse : string -> option json;
  (** string-to-number coercion; [None] is [NaN] *)
  StringToNumber : string -> option Z;
  (** whether [new URL(s)] accepts [s] *)
  URL_canParse : string -> bool;
  (** [response.json()] under the cast of each call site; [None] when the
      body is not JSON *)
  json_OpenIDConfiguration : string -> option OpenIDConfiguration;
  json_AccessTokenResponse : string -> option AccessTokenResponse;
  json_RefreshedTokenResponse : string -> option RefreshedTokenResponse;
  (** [crypto.subtle.digest({name: 'SHA-256'}, bytes)] *)
  SHA256 : list byte -> list byte;
  (** [new TextEncoder().encode(s)], the UTF-8 bytes of [s] *)
  TextEncoder_encode : string -> list byte
}.

(** ** The request's world and the monad of effects *)

Record World : Type := {
  session : gmap string value;   (* the session data *)
  ticks : nat;                   (* how many times the clock was read *)
  calls : list FetchRequest      (* outbound fetches, oldest first *)
}.

Definition M (A : Type) : Type := World -> (exn + A) * World.

Definition ret {A} (a : A) : M A := fun w => (inr a, w).
Definition throw {A} (e : exn) : M A := fun w => (inl e, w).
Definition bind {A B} (m : M A) (k : A -> M B) : M B :=
  fun w => match m w with
           | (inr a, w') => k a w'
           | (inl e, w') => (inl e, w')
           end.

(** [try { m } catch (e) { h e }]: what [m] did to the world before it threw
    stays done. *)
Definition try_catch {A} (m : M A) (h : exn -> M A) : M A :=
  fun w => match m w with
           | (inr a, w') => (inr a, w')
           | (inl e, w') => h e w'
           end.

Notation "'let*' x ':=' m 'in' k" := (bind m (fun x => k))
  (at level 10, x pattern, m at level 100, k at level 200).
Notation "m ';;' k" := (bind m (fun _ => k))
  (at level 100, k at level 200, right associativity).

Definition with_session (s : gmap string value) (w : World) : World :=
  {| session := s; ticks := ticks w; calls := calls w |}.

(** The session collaborator: [session.get], [session.set], [session.unset],
    [session.commit]. *)
Definition session_get (key : string) : M (option value) :=
  fun w => (inr (session w !! key), w).
Definition session_set (key : string) (v : value) : M unit :=
  fun w => (inr tt, with_session (<[key := v]> (session w)) w).
Definition session_unset (key : string) : M unit :=
  fun w => (inr tt, with_session (delete key (session w)) w).
(** [commit] serialises the session data into the cookie; the cookie is
    represented by the data it carries. *)
Definition session_commit : M (gmap string value) :=
  fun w => (inr (session w), w).

(** The world after one more reading of the clock. *)
Definition tick (w : World) : World :=
  {| session := session w; ticks := S (ticks w); calls := calls w |}.

Section WithRuntime.

Variable rt : Runtime.

(** [Date.now()] *)
Definition Date_now : M Z :=
  fun w => (inr (clock rt (ticks w)), tick w).

(** [fetch(url, init)]: the call is logged whether it resolves or rejects. *)
Definition fetch (req : FetchRequest) : M Response :=
  fun w =>
    let w' := {| session := session w; ticks := ticks w; calls := calls w ++ [req] |} in
    match network rt (List.length (calls w)) req with
    | Rejected e => (inl e, w')
    | Resolved r => (inr r, w')
    end.

(** [response.json()] under a cast: rejects when the body is not JSON. *)
Definition response_json {A} (decode : string -> option A) (response : Response) : M A :=
  match decode (body response) with
  | Some a => ret a
  | None => throw SyntaxError
  end.

(** *** customer-auth.ts *)

Definition user_agent : string := "Hydrogen Storefront".

Definition discoverAuthEndpoints (shopDomain : string) : M OpenIDConfiguration :=
  let discoveryUrl := "https://" ++ shopDomain ++ "/.well-known/openid-configuration" in
  let* response :=
    fetch {| fr_url := discoveryUrl; fr_method := "GET";
             fr_headers := [("User-Agent", user_agent); ("Accept", "application/json")];
             fr_body := [] |} in
  if negb (ok response) then
    throw (Error ("Failed to discover auth endpoints: " ++ statusText response
                  ++ " (" ++ Number_toString (status response)
                  ++ "). This may indicate that Customer Accounts are not enabled or properly configured in your Shopify store."))
  else response_json (json_OpenIDConfiguration rt) response.

(** The text a value contributes to a form body ([URLSearchParams.append]). *)
Definition value_toString (v : value) : string :=
  match v with
  | VStr s => s
  | VNum n => Number_toString n
  end.

Record TokenRequestParams : Type := {
  tokenEndpoint : string;
  clientId : string;
  redirectUri : string;
  code : string;
  codeVerifier : value
}.

Definition form_headers : list (string * string) :=
  [("content-type", "application/x-www-form-urlencoded"); ("user-agent", user_agent)].

Definition exchangeCodeForToken (params : TokenRequestParams) : M AccessTokenResponse :=
  let form :=
    [("grant_type", "authorization_code");
     ("client_id", clientId params);
     ("redirect_uri", redirectUri params);
     ("code", code params);
     ("code_verifier", value_toString (codeVerifier params))] in
  let* response :=
    fetch {| fr_url := tokenEndpoint params; fr_method := "POST";
             fr_headers := form_headers; fr_body := form |} in
  if negb (ok response) then
    throw (Error ("Token exchange failed: " ++ Number_toString (status response)
                  ++ " - " ++ body response))
  else response_json (json_AccessTokenResponse rt) response.

Record RefreshTokenParams : Type := {
  rp_tokenEndpoint : string;
  rp_clientId : string;
  rp_refreshToken : value
}.

Definition refreshAccessToken (params : RefreshTokenParams) : M RefreshedTokenResponse :=
  let form :=
    [("grant_type", "refresh_token");
     ("client_id", rp_clientId params);
     ("refresh_token", value_toString (rp_refreshToken params))] in
  let* response :=
    fetch {| fr_url := rp_tokenEndpoint params; fr_method := "POST";
             fr_headers := form_headers; fr_body := form |} in
  if negb (ok response) then
    throw (Error ("Token refresh failed: " ++ Number_toString (status response)
                  ++ " - " ++ body response))
  else response_json (json_RefreshedTokenResponse rt) response.

(** A parsed [URL] with the query parameters appended to it since. *)
Record URL : Type := {
  href : string;
  appended : list (string * string)
}.

Definition new_URL (s : string) : exn + URL :=
  if URL_canParse rt s then inr {| href := s; appended := [] |}
  else inl (TypeError "Invalid URL").

Definition searchParams_append (name val : string) (u : URL) : URL :=
  {| href := href u; appended := appended u ++ [(name, val)] |}.

Record LogoutParams : Type := {
  endSessionEndpoint : string;
  lp_idToken : value;
  postLogoutRedirectUri : string
}.

Definition buildLogoutUrl (params : LogoutParams) : exn + URL :=
  match new_URL (endSessionEndpoint params) with
  | inl e => inl e
  | inr url =>
      inr (searchParams_append "post_logout_redirect_uri" (postLogoutRedirectUri params)
             (searchParams_append "id_token_hint" (value_toString (lp_idToken params)) url))
  end.

(** [s.split(sep)] for a one-character separator: never empty. *)
Fixpoint split (sep : ascii) (s : string) : list string :=
  match s with
  | EmptyString => [EmptyString]
  | String c rest =>
      if Ascii.eqb c sep then EmptyString :: split sep rest
      else match split sep rest with
           | [] => [String c EmptyString]
           | seg :: segs => String c seg :: segs
           end
  end.

Record DecodedJWT : Type := {
  header : json;
  payload : json;
  signature : string
}.

Definition malformed_token : exn := Error "Invalid JWT token format".

Definition JSON_parse_atob (segment : string) : exn + json :=
  match atob rt segment with
  | None => inl InvalidCharacterError
  | Some text =>
      match JSON_parse rt text with
      | None => inl SyntaxError
      | Some j => inr j
      end
  end.

(** [const [header, payload, signature] = token.split('.')] binds the first
    three segments; a missing one is [undefined]. *)
Definition decodeJwt (token : string) : exn + DecodedJWT :=
  let parts := split "." token in
  let header := nth_error parts 0 in
  let payload := nth_error parts 1 in
  let signature := nth_error parts 2 in
  if negb (truthy_str header) || negb (truthy_str payload) || negb (truthy_str signature)
  then inl malformed_token
  else
    match header, payload, signature with
    | Some h, Some p, Some sg =>
        match JSON_parse_atob h with
        | inl e => inl e
        | inr decodedHeader =>
            match JSON_parse_atob p with
            | inl e => inl e
            | inr decodedPayload =>
                inr {| header := decodedHeader; payload := decodedPayload; signature := sg |}
            end
        end
    | _, _, _ => inl malformed_token
    end.

Fixpoint assoc {A} (name : string) (props : list (string * A)) : option A :=
  match props with
  | [] => None
  | (k, v) :: rest => if String.eqb k name then Some v else assoc name rest
  end.

(** Property access [j.name] on a parsed JSON value: [null] has no
    properties (a TypeError), an object yields the property or [undefined],
    every other value yields [undefined] for a name such as [nonce]. *)
Definition json_prop (name : string) (j : json) : exn + option json :=
  match j with
  | JNull => inl (TypeError "Cannot read properties of null")
  | JObj props => inr (assoc name props)
  | _ => inr None
  end.

Definition getNonce (idToken : string) : exn + option json :=
  match decodeJwt idToken with
  | inl e => inl e
  | inr decoded => json_prop "nonce" (payload decoded)
  end.

End WithRuntime.

(** *** PKCE helpers: [btoa], [base64UrlEncode], [convertBufferToString] *)

(** The code unit of a character of a binary string, [0 .. 255]. *)
Definition charCode (c : ascii) : Z := Z.of_N (N_of_ascii c).

Definition base64_alphabet : string :=
  "ABCDEFGHIJKLMNOPQRSTUVWXYZabcdefghijklmnopqrstuvwxyz0123456789+/".

Definition base64_digit (i : Z) : ascii :=
  match String.get (Z.to_nat i) base64_alphabet with
  | Some c => c
  | None => "A"%char
  end.

(** The platform's [btoa] on a binary string: standard base64 with [=]
    padding, three code units at a time. *)
Fixpoint btoa (s : string) : string :=
  match s with
  | EmptyString => EmptyString
  | String x EmptyString =>
      let a := charCode x in
      String (base64_digit (Z.shiftr a 2))
        (String (base64_digit (Z.shiftl (Z.land a 3) 4)) "==")
  | String x (String y EmptyString) =>
      let a := charCode x in
      let b := charCode y in
      String (base64_digit (Z.shiftr a 2))
        (String (base64_digit (Z.lor (Z.shiftl (Z.land a 3) 4) (Z.shiftr b 4)))
           (String (base64_digit (Z.shiftl (Z.land b 15) 2)) "="))
  | String x (String y (String z rest)) =>
      let a := charCode x in
      let b := charCode y in
      let c := charCode z in
      String (base64_digit (Z.shiftr a 2))
        (String (base64_digit (Z.lor (Z.shiftl (Z.land a 3) 4) (Z.shiftr b 4)))
           (String (base64_digit (Z.lor (Z.shiftl (Z.land b 15) 2) (Z.shiftr c 6)))
              (String (base64_digit (Z.land c 63)) (btoa rest))))
  end.

(** [s.replace(/c/g, by)] for a one-character pattern. *)
Fixpoint replace_all (c : ascii) (by_ : string) (s : string) : string :=
  match s with
  | EmptyString => EmptyString
  | String x rest =>
      if Ascii.eqb x c then by_ ++ replace_all c by_ rest
      else String x (replace_all c by_ rest)
  end.

(** The three replacements of [base64UrlEncode], composed. *)
Definition url_safe (s : string) : string :=
  replace_all "=" "" (replace_all "/" "_" (replace_all "+" "-" s)).

Definition base64UrlEncode (str : string) : string :=
  let base64 := btoa str in
  replace_all "=" "" (replace_all "/" "_" (replace_all "+" "-" base64)).

(** [String.fromCharCode(...new Uint8Array(hash))] *)
Definition convertBufferToString (hash : list byte) : string :=
  string_of_list_byte hash.

Definition generateCodeChallenge (rt : Runtime) (codeVerifier : string) : M string :=
  let digestOp := SHA256 rt (TextEncoder_encode rt codeVerifier) in
  let hash := convertBufferToString digestOp in
  ret (base64UrlEncode hash).

(** The specification's encoding, written from its words (RFC 4648, section 5):
    the bytes are read as a bit stream cut into 6-bit groups, the last group
    filled with zero bits, each group is a digit of the URL-safe alphabet,
    and no padding is emitted. *)
Definition base64url_alphabet : string :=
  "ABCDEFGHIJKLMNOPQRSTUVWXYZabcdefghijklmnopqrstuvwxyz0123456789-_".

Definition base64url_digit (i : Z) : ascii :=
  match String.get (Z.to_nat i) base64url_alphabet with
  | Some c => c
  | None => "A"%char
  end.

Definition byte_val (b : byte) : Z := Z.of_N (Byte.to_N b).

Fixpoint base64url_nopad (bytes : list byte) : string :=
  match bytes with
  | [] => EmptyString
  | [x] =>
      let a := byte_val x in
      String (base64url_digit (a / 4))
        (String (base64url_digit ((a mod 4) * 16)) EmptyString)
  | [x; y] =>
      let a := byte_val x in
      let b := byte_val y in
      String (base64url_digit (a / 4))
        (String (base64url_digit ((a mod 4) * 16 + b / 16))
           (String (base64url_digit ((b mod 16) * 4)) EmptyString))
  | x :: y :: z :: rest =>
      let a := byte_val x in
      let b := byte_val y in
      let c := byte_val z in
      String (base64url_digit (a / 4))
        (String (base64url_digit ((a mod 4) * 16 + b / 16))
           (String (base64url_digit ((b mod 16) * 4 + c / 64))
              (String (base64url_digit (c mod 64)) (base64url_nopad rest))))
  end.

(** *** Session keys, expiry *)

Module SESSION_KEYS.
Definition CODE_VERIFIER : string := "customer_code_verifier".
Definition STATE : string := "customer_state".
Definition NONCE : string := "customer_nonce".
Definition ACCESS_TOKEN : string := "customer_access_token".
Definition REFRESH_TOKEN : string := "customer_refresh_token".
Definition ID_TOKEN : string := "customer_id_token".
Definition EXPIRES_AT : string := "customer_expires_at".
End SESSION_KEYS.
Import SESSION_KEYS.

(** The string of an option that a preceding truthiness test found defined. *)
Definition the (o : option string) : string := default EmptyString o.

Section Session.

Variable rt : Runtime.

(** [now >= v]: a string operand is coerced to a number, and every
    comparison with [NaN] is false. *)
Definition number_ge (now : Z) (v : value) : bool :=
  match v with
  | VNum n => (now >=? n)%Z
  | VStr s =>
      match StringToNumber rt s with
      | Some n => (now >=? n)%Z
      | None => false
      end
  end.

Definition isTokenExpired (expiresAt : value) : M bool :=
  let* now := Date_now rt in
  ret (number_ge now expiresAt).

Definition calculateExpiresAt (expiresIn : Z) : M Z :=
  let* now := Date_now rt in
  ret (now + expiresIn * 1000).

(** *** customer-session.ts *)

Record CustomerTokens : Type := {
  accessToken : value;
  refreshToken : value;
  idToken : value;
  expiresAt : value
}.

Definition getCustomerTokens : M (option CustomerTokens) :=
  let* accessToken := session_get ACCESS_TOKEN in
  let* refreshToken := session_get REFRESH_TOKEN in
  let* idToken := session_get ID_TOKEN in
  let* expiresAt := session_get EXPIRES_AT in
  if negb (truthy_opt accessToken) || negb (truthy_opt refreshToken)
     || negb (truthy_opt idToken) || negb (truthy_opt expiresAt)
  then ret None
  else
    match accessToken, refreshToken, idToken, expiresAt with
    | Some a, Some r, Some i, Some e =>
        ret (Some {| accessToken := a; refreshToken := r; idToken := i; expiresAt := e |})
    | _, _, _, _ => ret None
    end.

Definition isCustomerAuthenticated : M bool :=
  let* tokens := getCustomerTokens in
  match tokens with
  | None => ret false
  | Some tokens =>
      let* expired := isTokenExpired (expiresAt tokens) in
      ret (negb expired)
  end.

Definition clearCustomerSession : M unit :=
  session_unset ACCESS_TOKEN ;;
  session_unset REFRESH_TOKEN ;;
  session_unset ID_TOKEN ;;
  session_unset EXPIRES_AT ;;
  session_unset CODE_VERIFIER ;;
  session_unset STATE ;;
  session_unset NONCE.

Definition getValidAccessToken (shopDomain clientId : string) : M (option value) :=
  let* tokens := getCustomerTokens in
  match tokens with
  | None => ret None
  | Some tokens =>
      let* expired := isTokenExpired (expiresAt tokens) in
      if negb expired then ret (Some (accessToken tokens))
      else
        try_catch
          (let* authConfig := discoverAuthEndpoints rt shopDomain in
           let* newTokens :=
             refreshAccessToken rt
               {| rp_tokenEndpoint := token_endpoint authConfig;
                  rp_clientId := clientId;
                  rp_refreshToken := refreshToken tokens |} in
           session_set ACCESS_TOKEN (VStr (r_access_token newTokens)) ;;
           session_set REFRESH_TOKEN (VStr (r_refresh_token newTokens)) ;;
           let* now := Date_now rt in
           session_set EXPIRES_AT (VNum (now + r_expires_in newTokens * 1000)) ;;
           ret (Some (VStr (r_access_token newTokens))))
          (fun _ => clearCustomerSession ;; ret None)
  end.

(** The two awaited calls of the [try] block of [getValidAccessToken]:
    discovery, then the refresh exchange. *)
Definition refresh_attempt (shopDomain clientId : string) (tokens : CustomerTokens)
  : M RefreshedTokenResponse :=
  let* authConfig := discoverAuthEndpoints rt shopDomain in
  refreshAccessToken rt
    {| rp_tokenEndpoint := token_endpoint authConfig;
       rp_clientId := clientId;
       rp_refreshToken := refreshToken tokens |}.

(** *** customer-guards.ts *)

Record Env : Type := {
  PUBLIC_STORE_DOMAIN : option string;
  PUBLIC_CUSTOMER_ACCOUNT_API_CLIENT_ID : option string;
  CUSTOMER_ACCOUNT_CLIENT_ID : option string;
  SHOP_ID : option string;
  PUBLIC_CUSTOMER_ACCOUNT_API_URL : option string
}.

Definition requireCustomerAuth : M unit :=
  let* authed := isCustomerAuthenticated in
  if negb authed then throw (ThrownRedirect "/account/authorize")
  else ret tt.

Definition getAuthenticatedToken (env : Env) : M value :=
  let shopDomain := PUBLIC_STORE_DOMAIN env in
  let clientId :=
    or_str (PUBLIC_CUSTOMER_ACCOUNT_API_CLIENT_ID env) (CUSTOMER_ACCOUNT_CLIENT_ID env) in
  if negb (truthy_str shopDomain) || negb (truthy_str clientId)
  then throw (Error "PUBLIC_STORE_DOMAIN and CUSTOMER_ACCOUNT_CLIENT_ID must be set")
  else
    let* accessToken := getValidAccessToken (the shopDomain) (the clientId) in
    match accessToken with
    | Some token => if truthy token then ret token
                    else throw (ThrownRedirect "/account/authorize")
    | None => throw (ThrownRedirect "/account/authorize")
    end.

Definition optionalAuth (env : Env) : M (option value) :=
  let shopDomain := PUBLIC_STORE_DOMAIN env in
  let clientId :=
    or_str (PUBLIC_CUSTOMER_ACCOUNT_API_CLIENT_ID env) (CUSTOMER_ACCOUNT_CLIENT_ID env) in
  if negb (truthy_str shopDomain) || negb (truthy_str clientId)
  then ret None
  else
    let* authed := isCustomerAuthenticated in
    if negb authed then ret None
    else
      try_catch (getValidAccessToken (the shopDomain) (the clientId))
                (fun _ => ret None).


End Session.

(** *** The routes *)

(** The inbound request, with its URL already parsed: [new URL(request.url)]
    accepts the URL of every request the server receives. *)
Record Request : Type := {
  origin : string;
  query : list (string * string)
}.

(** [url.searchParams.get(name)]: the first value of the name, or [null]. *)
Definition searchParams_get (name : string) (request : Request) : option string :=
  assoc name (query request).

Inductive Location : Type :=
| Path (p : string)
| Link (u : URL).

(** [redirect(location, {headers: {'Set-Cookie': cookie}})] *)
Record Redirect : Type := {
  location : Location;
  set_cookie : option (gmap string value)
}.

Definition redirect (p : string) : Redirect :=
  {| location := Path p; set_cookie := None |}.

Definition is_digit (c : ascii) : bool :=
  let n := charCode c in (48 <=? n)%Z && (n <=? 57)%Z.

Fixpoint take_while {A} (f : A -> bool) (l : list A) : list A :=
  match l with
  | x :: rest => if f x then x :: take_while f rest else []
  | [] => []
  end.

Fixpoint drop_while {A} (f : A -> bool) (l : list A) : list A :=
  match l with
  | x :: rest => if f x then drop_while f rest else l
  | [] => []
  end.

(** [s.match(/\/(\d+)$/)], group 1: the digits that end [s], when there is at
    least one and a slash comes right before them. *)
Definition match_trailing_digits (s : string) : option string :=
  let backwards := rev (list_ascii_of_string s) in
  match take_while is_digit backwards, drop_while is_digit backwards with
  | (_ :: _) as digits, "/"%char :: _ => Some (string_of_list_ascii (rev digits))
  | _, _ => None
  end.

(** [state !== storedState] for a string and a session value. *)
Definition differs_from_stored (s : string) (stored : option value) : bool :=
  match stored with
  | Some (VStr s') => negb (String.eqb s s')
  | _ => true
  end.

(** [tokenNonce !== storedNonce] for a JSON value or [undefined] and a
    session value. *)
Definition nonce_differs (tokenNonce : option json) (storedNonce : value) : bool :=
  match tokenNonce, storedNonce with
  | Some (JStr s), VStr s' => negb (String.eqb s s')
  | Some (JNum n), VNum n' => negb (n =? n')%Z
  | _, _ => true
  end.

(** The shop identifier, as the routes determine it: [SHOP_ID], or else the
    digits that end [PUBLIC_CUSTOMER_ACCOUNT_API_URL]. *)
Definition shop_id_of (env : Env) : option string :=
  if negb (truthy_str (SHOP_ID env))
     && truthy_str (PUBLIC_CUSTOMER_ACCOUNT_API_URL env)
  then
    match match_trailing_digits (the (PUBLIC_CUSTOMER_ACCOUNT_API_URL env)) with
    | Some digits => Some digits
    | None => SHOP_ID env
    end
  else SHOP_ID env.

(** Whether the guards find their configuration incomplete. *)
Definition config_missing (env : Env) : bool :=
  negb (truthy_str (PUBLIC_STORE_DOMAIN env))
  || negb (truthy_str (or_str (PUBLIC_CUSTOMER_ACCOUNT_API_CLIENT_ID env)
                              (CUSTOMER_ACCOUNT_CLIENT_ID env))).

(** What [getCustomerTokens] finds in given session data. *)
Definition stored_tokens (s : gmap string value) : option CustomerTokens :=
  match s !! ACCESS_TOKEN, s !! REFRESH_TOKEN, s !! ID_TOKEN, s !! EXPIRES_AT with
  | Some a, Some r, Some i, Some e =>
      if truthy a && truthy r && truthy i && truthy e
      then Some {| accessToken := a; refreshToken := r; idToken := i; expiresAt := e |}
      else None
  | _, _, _, _ => None
  end.

Section Routes.

Variable rt : Runtime.

(** account.authorize.callback.tsx *)
Definition callback_loader (request : Request) (env : Env) : M Redirect :=
  let code := searchParams_get "code" request in
  let state := searchParams_get "state" request in
  let error := searchParams_get "error" request in
  if truthy_str error then ret (redirect ("/account/login?error=" ++ the error))
  else if negb (truthy_str code) || negb (truthy_str state)
  then ret (redirect "/account/login?error=invalid_callback")
  else
    let* storedState := session_get STATE in
    if differs_from_stored (the state) storedState
    then ret (redirect "/account/login?error=invalid_state")
    else
      let* codeVerifier := session_get CODE_VERIFIER in
      match codeVerifier with
      | None => ret (redirect "/account/login?error=missing_verifier")
      | Some codeVerifier =>
        if negb (truthy codeVerifier)
        then ret (redirect "/account/login?error=missing_verifier")
        else
          let shopDomain := PUBLIC_STORE_DOMAIN env in
          let clientId :=
            or_str (PUBLIC_CUSTOMER_ACCOUNT_API_CLIENT_ID env)
                   (CUSTOMER_ACCOUNT_CLIENT_ID env) in
          if negb (truthy_str shopDomain) || negb (truthy_str clientId)
          then throw (Error "Required environment variables not set")
          else
            let shopId := shop_id_of env in
            if negb (truthy_str shopId)
            then throw (Error "SHOP_ID could not be determined from environment variables")
            else
              try_catch
                (let tokenEndpoint :=
                   "https://shopify.com/authentication/" ++ the shopId ++ "/oauth/token" in
                 let redirectUri := origin request ++ "/account/authorize/callback" in
                 let* tokenResponse :=
                   exchangeCodeForToken rt
                     {| tokenEndpoint := tokenEndpoint;
                        clientId := the clientId;
                        redirectUri := redirectUri;
                        code := the code;
                        codeVerifier := codeVerifier |} in
                 let store : M Redirect :=
                   let* expiresAt := calculateExpiresAt rt (expires_in tokenResponse) in
                   session_set ACCESS_TOKEN (VStr (access_token tokenResponse)) ;;
                   session_set REFRESH_TOKEN (VStr (refresh_token tokenResponse)) ;;
                   session_set ID_TOKEN (VStr (id_token tokenResponse)) ;;
                   session_set EXPIRES_AT (VNum expiresAt) ;;
                   session_unset CODE_VERIFIER ;;
                   session_unset STATE ;;
                   session_unset NONCE ;;
                   let* cookie := session_commit in
                   ret {| location := Path "/account"; set_cookie := Some cookie |} in
                 let* storedNonce := session_get NONCE in
                 match storedNonce with
                 | Some storedNonce =>
                     if truthy storedNonce then
                       match getNonce rt (id_token tokenResponse) with
                       | inl e => throw e
                       | inr tokenNonce =>
                           if nonce_differs tokenNonce storedNonce
                           then ret (redirect "/account/login?error=invalid_nonce")
                           else store
                       end
                     else store
                 | None => store
                 end)
                (fun _ => ret (redirect "/account/login?error=token_exchange_failed"))
      end.

(** account.logout.tsx *)
Definition logout_loader (request : Request) (env : Env) : M Redirect :=
  let shopDomain := PUBLIC_STORE_DOMAIN env in
  if negb (truthy_str shopDomain)
  then throw (Error "PUBLIC_STORE_DOMAIN environment variable is not set")
  else
    let* idToken := session_get ID_TOKEN in
    session_unset ACCESS_TOKEN ;;
    session_unset REFRESH_TOKEN ;;
    session_unset ID_TOKEN ;;
    session_unset EXPIRES_AT ;;
    let home : M Redirect :=
      let* cookie := session_commit in
      ret {| location := Path "/"; set_cookie := Some cookie |} in
    try_catch
      (match idToken with
       | Some idToken =>
           if truthy idToken then
             let* authConfig := discoverAuthEndpoints rt (the shopDomain) in
             let postLogoutRedirectUri := origin request ++ "/" in
             match buildLogoutUrl rt
                     {| endSessionEndpoint := end_session_endpoint authConfig;
                        lp_idToken := idToken;
                        postLogoutRedirectUri := postLogoutRedirectUri |} with
             | inl e => throw e
             | inr logoutUrl =>
                 let* cookie := session_commit in
                 ret {| location := Link logoutUrl; set_cookie := Some cookie |}
             end
           else home
       | None => home
       end)
      (fun _ => home).

End Routes.

(** ** The rest of the library and of the routes *)

(** What the remaining operations draw from the platform's random sources. *)
Record Entropy : Type := {
  (** the [i]-th byte that [crypto.getRandomValues] writes *)
  getRandomValues : nat -> byte;
  (** [Math.random().toString(36)] of the call that [generateState] makes *)
  Math_random_base36 : string;
  (** [Math.floor(Math.random() * characters.length)] at the [i]-th
      iteration of [generateNonce] *)
  Math_random_index : nat -> Z
}.

Record CustomerAccountAPIConfig : Type := {
  graphql_api : string;
  mcp_api : string
}.

(** [s.substring(n)] *)
Fixpoint substring_from (n : nat) (s : string) : string :=
  match n, s with
  | O, _ => s
  | S n', String _ rest => substring_from n' rest
  | S _, EmptyString => EmptyString
  end.

(** [s.charAt(i)]: the empty string when [i] is out of range. *)
Definition charAt (i : Z) (s : string) : string :=
  if (i <? 0)%Z then EmptyString
  else match String.get (Z.to_nat i) s with
       | Some c => String c EmptyString
       | None => EmptyString
       end.

Definition nonce_characters : string :=
  "ABCDEFGHIJKLMNOPQRSTUVWXYZabcdefghijklmnopqrstuvwxyz0123456789".

Record AuthorizationRequestParams : Type := {
  authorizationEndpoint : string;
  ap_clientId : string;
  ap_redirectUri : string;
  ap_state : string;
  ap_nonce : option string;
  codeChallenge : string;
  locale : option string;
  prompt : option string
}.

Section Library.

Variable rt : Runtime.
Variable ent : Entropy.
(** [response.json()] under the cast of [discoverAPIEndpoints] *)
Variable json_CustomerAccountAPIConfig : string -> option CustomerAccountAPIConfig.

Definition discoverAPIEndpoints (shopDomain : string) : M CustomerAccountAPIConfig :=
  let apiDiscoveryUrl := "https://" ++ shopDomain ++ "/.well-known/customer-account-api" in
  let* response :=
    fetch rt {| fr_url := apiDiscoveryUrl; fr_method := "GET";
                fr_headers := [("User-Agent", user_agent); ("Accept", "application/json")];
                fr_body := [] |} in
  if negb (ok response) then
    throw (Error ("Failed to discover API endpoints: " ++ statusText response
                  ++ " (" ++ Number_toString (status response) ++ ")"))
  else response_json json_CustomerAccountAPIConfig response.

(** [String.fromCharCode] of the 32 bytes that [crypto.getRandomValues] wrote. *)
Definition generateRandomCode : string :=
  string_of_list_byte (List.map (getRandomValues ent) (seq 0 32)).

Definition generateCodeVerifier : M string :=
  let randomCode := generateRandomCode in
  ret (base64UrlEncode randomCode).

Definition generateState : M string :=
  let* now := Date_now rt in
  let timestamp := Number_toString now in
  let randomString := substring_from 2 (Math_random_base36 ent) in
  ret (timestamp ++ randomString).

(** The loop of [generateNonce], from iteration [i], with [n] iterations left. *)
Fixpoint generateNonce_from (i n : nat) (nonce : string) : string :=
  match n with
  | O => nonce
  | S n' =>
      let randomIndex := Math_random_index ent i in
      generateNonce_from (S i) n' (nonce ++ charAt randomIndex nonce_characters)
  end.

Definition generateNonce (length : Z) : M string :=
  ret (generateNonce_from 0 (Z.to_nat length) EmptyString).

Definition buildAuthorizationUrl (params : AuthorizationRequestParams) : exn + URL :=
  match new_URL rt (authorizationEndpoint params) with
  | inl e => inl e
  | inr url =>
      let url := searchParams_append "scope" "openid email customer-account-api:full" url in
      let url := searchParams_append "client_id" (ap_clientId params) url in
      let url := searchParams_append "response_type" "code" url in
      let url := searchParams_append "redirect_uri" (ap_redirectUri params) url in
      let url := searchParams_append "state" (ap_state params) url in
      let url := searchParams_append "code_challenge" (codeChallenge params) url in
      let url := searchParams_append "code_challenge_method" "S256" url in
      let url := if truthy_str (ap_nonce params)
                 then searchParams_append "nonce" (the (ap_nonce params)) url else url in
      let url := if truthy_str (locale params)
                 then searchParams_append "locale" (the (locale params)) url else url in
      let url := if truthy_str (prompt params)
                 then searchParams_append "prompt" (the (prompt params)) url else url in
      inr url
  end.

(** customer-session.ts *)
Definition storeCustomerTokens (tokens : AccessTokenResponse) : M unit :=
  let* now := Date_now rt in
  let expiresAt := now + expires_in tokens * 1000 in
  session_set ACCESS_TOKEN (VStr (access_token tokens)) ;;
  session_set REFRESH_TOKEN (VStr (refresh_token tokens)) ;;
  session_set ID_TOKEN (VStr (id_token tokens)) ;;
  session_set EXPIRES_AT (VNum expiresAt).

(** account.authorize.tsx: the login initiation route *)
Definition authorize_loader (request : Request) (env : Env) : M Redirect :=
  let shopDomain := PUBLIC_STORE_DOMAIN env in
  if negb (truthy_str shopDomain)
  then throw (Error "PUBLIC_STORE_DOMAIN environment variable is not set")
  else
    let clientId :=
      or_str (PUBLIC_CUSTOMER_ACCOUNT_API_CLIENT_ID env) (CUSTOMER_ACCOUNT_CLIENT_ID env) in
    if negb (truthy_str clientId)
    then throw (Error "CUSTOMER_ACCOUNT_CLIENT_ID environment variable is not set")
    else
      let shopId := shop_id_of env in
      if negb (truthy_str shopId)
      then throw (Error "SHOP_ID could not be determined from environment variables")
      else
        let authorizationEndpoint :=
          "https://shopify.com/authentication/" ++ the shopId ++ "/oauth/authorize" in
        let* codeVerifier := generateCodeVerifier in
        let* codeChallenge := generateCodeChallenge rt codeVerifier in
        let* state := generateState in
        let* nonce := generateNonce 16 in
        session_set CODE_VERIFIER (VStr codeVerifier) ;;
        session_set STATE (VStr state) ;;
        session_set NONCE (VStr nonce) ;;
        let redirectUri := origin request ++ "/account/authorize/callback" in
        match buildAuthorizationUrl
                {| authorizationEndpoint := authorizationEndpoint;
                   ap_clientId := the clientId;
                   ap_redirectUri := redirectUri;
                   ap_state := state;
                   ap_nonce := Some nonce;
                   codeChallenge := codeChallenge;
                   locale := None;
                   prompt := None |} with
        | inl e => throw e
        | inr authUrl =>
            let* cookie := session_commit in
            ret {| location := Link authUrl; set_cookie := Some cookie |}
        end.



End Library.

(** [parts.join(sep)] *)
Fixpoint join (sep : string) (parts : list string) : string :=
  match parts with
  | [] => EmptyString
  | [p] => p
  | p :: rest => p ++ sep ++ join sep rest
  end.

(** Whether a character occurs in a string. *)
Fixpoint occurs (c : ascii) (s : string) : bool :=
  match s with
  | EmptyString => false
  | String x rest => Ascii.eqb x c || occurs c rest
  end.

(** Whether every character of a string is drawn from an alphabet. *)
Fixpoint drawn_from (alphabet : string) (s : string) : bool :=
  match s with
  | EmptyString => true
  | String x rest => occurs x alphabet && drawn_from alphabet rest
  end.

(** The position of a character in the URL-safe alphabet ([64] when it is
    not there), and the reading of an unpadded base64url text back into byte
    values; both serve to show that the encoding loses nothing. *)
Fixpoint position_in (c : ascii) (alphabet : string) : Z :=
  match alphabet with
  | EmptyString => 0
  | String x rest => if Ascii.eqb x c then 0 else 1 + position_in c rest
  end.

Definition base64url_value (c : ascii) : Z := position_in c base64url_alphabet.

Fixpoint base64url_read (s : string) : list Z :=
  match s with
  | String c1 (String c2 EmptyString) =>
      let s1 := base64url_value c1 in
      let s2 := base64url_value c2 in
      [s1 * 4 + s2 / 16]
  | String c1 (String c2 (String c3 EmptyString)) =>
      let s1 := base64url_value c1 in
      let s2 := base64url_value c2 in
      let s3 := base64url_value c3 in
      [s1 * 4 + s2 / 16; (s2 mod 16) * 16 + s3 / 4]
  | String c1 (String c2 (String c3 (String c4 rest))) =>
      let s1 := base64url_value c1 in
      let s2 := base64url_value c2 in
      let s3 := base64url_value c3 in
      let s4 := base64url_value c4 in
      (s1 * 4 + s2 / 16) :: ((s2 mod 16) * 16 + s3 / 4) :: ((s3 mod 4) * 64 + s4)
        :: base64url_read rest
  | _ => []
  end.

(** *** The callback route, in parts

    The request that the callback route sends to the token endpoint, what it
    does once the exchange has answered, and the session it leaves when it
    stores the tokens; the statements about the route are phrased with them. *)

Definition callback_exchange (request : Request) (env : Env) (codeVerifier : value)
  : TokenRequestParams :=
  {| tokenEndpoint :=
       "https://shopify.com/authentication/" ++ the (shop_id_of env) ++ "/oauth/token";
     clientId := the (or_str (PUBLIC_CUSTOMER_ACCOUNT_API_CLIENT_ID env)
                             (CUSTOMER_ACCOUNT_CLIENT_ID env));
     redirectUri := origin request ++ "/account/authorize/callback";
     code := the (searchParams_get "code" request);
     codeVerifier := codeVerifier |}.

Definition persisted (tokenResponse : AccessTokenResponse) (expiresAt : Z)
           (s : gmap string value) : gmap string value :=
  delete NONCE (delete STATE (delete CODE_VERIFIER
    (<[EXPIRES_AT := VNum expiresAt]>
       (<[ID_TOKEN := VStr (id_token tokenResponse)]>
          (<[REFRESH_TOKEN := VStr (refresh_token tokenResponse)]>
             (<[ACCESS_TOKEN := VStr (access_token tokenResponse)]> s)))))).

(** Whether the callback route accepts the nonce of an identity token,
    given what the session holds under the nonce key: [None] when decoding
    the token throws. *)
Definition nonce_accepted (rt : Runtime) (stored : option value) (id_token : string)
  : option bool :=
  match stored with
  | Some storedNonce =>
      if truthy storedNonce then
        match getNonce rt id_token with
        | inl _ => None
        | inr tokenNonce => Some (negb (nonce_differs tokenNonce storedNonce))
        end
      else Some true
  | None => Some true
  end.

(** A text made of decimal digits only. *)
Definition all_digits (d : string) : Prop :=
  Forall (fun c => is_digit c = true) (list_ascii_of_string d).

(** ** Vocabulary of the statements *)

(** The keys of the token set, and the keys of an authorization in flight. *)
Definition token_keys : list string :=
  [ACCESS_TOKEN; REFRESH_TOKEN; ID_TOKEN; EXPIRES_AT].

Definition in_flight_keys : list string :=
  [CODE_VERIFIER; STATE; NONCE].

(** [w'] has the session data and the clock position of [w]. *)
Definition same_session (w w' : World) : Prop :=
  session w' = session w /\ ticks w' = ticks w.

(** The first three segments of a token are there and none is empty. *)
Definition three_leading_segments (token : string) : Prop :=
  exists h p sg rest,
    split "." token = h :: p :: sg :: rest
    /\ h <> EmptyString /\ p <> EmptyString /\ sg <> EmptyString.

(** ** Scenarios

    A concrete runtime and concrete sessions, on which the statements below
    are exercised. *)

Module Sample.

Definition openid : OpenIDConfiguration :=
  {| authorization_endpoint := "https://shopify.com/authentication/1/oauth/authorize";
     token_endpoint := "https://shopify.com/authentication/1/oauth/token";
     end_session_endpoint := "https://shopify.com/authentication/1/logout";
     jwks_uri := "https://shopify.com/authentication/1/.well-known/jwks.json";
     issuer := "https://shopify.com/authentication/1" |}.

(** Code exchange answers with an identity token whose payload is
    [{nonce: n2}]. *)
Definition issued : AccessTokenResponse :=
  {| access_token := "A"; expires_in := 3600;
     id_token := "e30.eyJub25jZSI6Im4yIn0.S"; refresh_token := "R" |}.

Definition refreshed : RefreshedTokenResponse :=
  {| r_access_token := "A2"; r_expires_in := 3600; r_refresh_token := "R2" |}.

(** The provider: discovery documents are served on GET; the token
    endpoint answers every POST with [reply]. *)
Definition provider (reply : Response) (n : nat) (req : FetchRequest) : FetchResult :=
  if String.eqb (fr_method req) "GET"
  then Resolved {| ok := true; status := 200; statusText := "OK"; body := "openid" |}
  else Resolved reply.

Definition granted : Response :=
  {| ok := true; status := 200; statusText := "OK"; body := "tokens" |}.

Definition rejected : Response :=
  {| ok := false; status := 400; statusText := "Bad Request"; body := "invalid_grant" |}.

Definition quoted (s : string) : string :=
  String (ascii_of_nat 34) (s ++ String (ascii_of_nat 34) EmptyString).

(** The text [{nonce: n2}] as JSON, with its quotation marks. *)
Definition nonce_n2 : string :=
  "{" ++ quoted "nonce" ++ ":" ++ quoted "n2" ++ "}".

Definition select {A} (key : string) (a : A) (text : string) : option A :=
  if String.eqb text key then Some a else None.

(** Clock readings 1000, 1001, ...; the digest and the text encoder play no
    role in the scenarios. *)
Definition runtime (reply : Response) : Runtime :=
  {| clock := fun n => 1000 + Z.of_nat n;
     network := provider reply;
     atob := fun s =>
       if String.eqb s "e30" then Some "{}"
       else if String.eqb s "eyJub25jZSI6Im4yIn0" then Some nonce_n2
       else None;
     JSON_parse := fun s =>
       if String.eqb s "{}" then Some (JObj [])
       else if String.eqb s nonce_n2 then Some (JObj [("nonce", JStr "n2")])
       else None;
     StringToNumber := fun _ => None;
     URL_canParse := String.prefix "https://";
     json_OpenIDConfiguration := select "openid" openid;
     json_AccessTokenResponse := select "tokens" issued;
     json_RefreshedTokenResponse := select "tokens" refreshed;
     SHA256 := fun bytes => bytes;
     TextEncoder_encode := list_byte_of_string |}.

(** A session holding a token set that expires at [expiry], together with
    in-flight authorization material and an unrelated key. *)
Definition logged_in (expiry : Z) : gmap string value :=
  <[ACCESS_TOKEN := VStr "A"]>
    (<[REFRESH_TOKEN := VStr "R"]>
       (<[ID_TOKEN := VStr "H.P.S"]>
          (<[EXPIRES_AT := VNum expiry]>
             (<[CODE_VERIFIER := VStr "xyz"]>
                (<[STATE := VStr "s1"]>
                   (<[NONCE := VStr "n1"]>
                      (<["cartId" := VStr "c-7"]> ∅))))))).

(** A session in the middle of an authorization attempt. *)
Definition awaiting_callback : gmap string value :=
  <[CODE_VERIFIER := VStr "xyz"]>
    (<[STATE := VStr "s1"]>
       (<[NONCE := VStr "n1"]> ∅)).

Definition world (s : gmap string value) : World :=
  {| session := s; ticks := 0; calls := [] |}.

Definition env : Env :=
  {| PUBLIC_STORE_DOMAIN := Some "shop.example.com";
     PUBLIC_CUSTOMER_ACCOUNT_API_CLIENT_ID := None;
     CUSTOMER_ACCOUNT_CLIENT_ID := Some "client-1";
     SHOP_ID := None;
     PUBLIC_CUSTOMER_ACCOUNT_API_URL := Some "https://shopify.com/91454472574" |}.

Definition request (params : list (string * string)) : Request :=
  {| origin := "https://store.example.com"; query := params |}.

Definition rt_granted : Runtime := runtime granted.
Definition rt_rejected : Runtime := runtime rejected.

(** The token set that [logged_in expiry] holds. *)
Definition held (expiry : Z) : CustomerTokens :=
  {| accessToken := VStr "A"; refreshToken := VStr "R";
     idToken := VStr "H.P.S"; expiresAt := VNum expiry |}.

(** The clock starts at 1000: [fresh] is unexpired, [expired] is not. *)
Definition fresh : World := world (logged_in 2000).
Definition expired : World := world (logged_in 990).
Definition anonymous : World := world (<["cartId" := VStr "c-7"]> ∅).
Definition pending : World := world awaiting_callback.

(** Callbacks: the stored state is [s1]. *)
Definition genuine_callback : Request :=
  request [("code", "abc"); ("state", "s1")].
Definition forged_callback : Request :=
  request [("code", "abc"); ("state", "s2")].
Definition forged_callback_with_error : Request :=
  request [("code", "abc"); ("state", "s2"); ("error", "access_denied")].

End Sample.

(** A concrete source of randomness, a decoder of the API discovery
    document and a verifier of 32 characters, for the scenarios of the
    remaining operations. *)
Module Scene.

Definition entropy : Entropy :=
  {| getRandomValues := fun i =>
       match Byte.of_nat (7 * i + 3) with Some b => b | None => "000"%byte end;
     Math_random_base36 := "0.4fzyo82mvyr";
     Math_random_index := fun i => Z.of_nat ((11 * i + 5) mod 62) |}.

Definition api_config : CustomerAccountAPIConfig :=
  {| graphql_api := "https://shopify.com/1/account/customer/api/2025-01/graphql";
     mcp_api := "https://shopify.com/1/account/customer/api/mcp" |}.

Definition json_api_config : string -> option CustomerAccountAPIConfig :=
  Sample.select "api" api_config.

Definition verifier : string := "0123456789abcdefghijklmnopqrstuv".

(** A provider that answers every request with 503. *)
Definition unavailable : Response :=
  {| ok := false; status := 503; statusText := "Service Unavailable"; body := "down" |}.

Definition rt_down : Runtime :=
  {| clock := clock Sample.rt_granted;
     network := fun _ _ => Resolved unavailable;
     atob := atob Sample.rt_granted;
     JSON_parse := JSON_parse Sample.rt_granted;
     StringToNumber := StringToNumber Sample.rt_granted;
     URL_canParse := URL_canParse Sample.rt_granted;
     json_OpenIDConfiguration := json_OpenIDConfiguration Sample.rt_granted;
     json_AccessTokenResponse := json_AccessTokenResponse Sample.rt_granted;
     json_RefreshedTokenResponse := json_RefreshedTokenResponse Sample.rt_granted;
     SHA256 := SHA256 Sample.rt_granted;
     TextEncoder_encode := TextEncoder_encode Sample.rt_granted |}.

Definition exchange_params : TokenRequestParams :=
  {| tokenEndpoint := "https://shopify.com/authentication/1/oauth/token";
     clientId := "client-1";
     redirectUri := "https://store.example.com/account/authorize/callback";
     code := "abc";
     codeVerifier := VStr "xyz" |}.

(** A session in the middle of an authorization attempt made without a
    nonce, and the world that the exchange of its callback leaves. *)
Definition returning : World :=
  Sample.world (<[CODE_VERIFIER := VStr "xyz"]> (<[STATE := VStr "s1"]> ∅)).

Definition exchanged : World :=
  snd (exchangeCodeForToken Sample.rt_granted
         (callback_exchange Sample.genuine_callback Sample.env (VStr "xyz")) returning).

Definition refresh_params : RefreshTokenParams :=
  {| rp_tokenEndpoint := "https://shopify.com/authentication/1/oauth/token";
     rp_clientId := "client-1";
     rp_refreshToken := VStr "R" |}.

End Scene.

(** * Verification *)

(** ** PKCE challenge encoding *)

Lemma list_ind3 {A} (P : list A -> Prop) :
  P [] -> (forall a, P [a]) -> (forall a b, P [a; b]) ->
  (forall a b c l, P l -> P (a :: b :: c :: l)) ->
  forall l, P l.
Proof.
  intros H0 H1 H2 H3 l.
  assert (P l /\ (forall a, P (a :: l)) /\ (forall a b, P (a :: b :: l))) as [? _].
  { induction l as [|x l (IH0 & IH1 & IH2)]; repeat split; auto. }
  assumption.
Qed.

Lemma byte_val_range (b : byte) : 0 <= byte_val b < 256.
Proof.
  unfold byte_val. pose proof (Byte.to_N_bounded b). lia.
Qed.

Lemma charCode_of_byte (b : byte) : charCode (ascii_of_byte b) = byte_val b.
Proof.
  unfold charCode, byte_val.
  rewrite ascii_of_byte_via_N, N_ascii_embedding; [reflexivity|].
  pose proof (Byte.to_N_bounded b). lia.
Qed.

Lemma url_safe_digit (i : Z) (rest : string) :
  0 <= i < 64 ->
  url_safe (String (base64_digit i) rest) = String (base64url_digit i) (url_safe rest).
Proof.
  intros Hi.
  replace i with (Z.of_nat (Z.to_nat i)) by lia.
  assert (Hn : (Z.to_nat i < 64)%nat) by lia.
  generalize dependent (Z.to_nat i). intros n Hn.
  do 64 (destruct n as [|n]; [reflexivity|]). lia.
Qed.

Lemma sextet_hi (a : Z) : 0 <= a < 256 -> Z.shiftr a 2 = a / 4 /\ 0 <= a / 4 < 64.
Proof.
  intros Ha. rewrite Z.shiftr_div_pow2 by lia. change (2 ^ 2) with 4.
  split; [reflexivity|]. split; [apply Z.div_pos; lia | apply Z.div_lt_upper_bound; lia].
Qed.

Lemma sextet_lo (c : Z) : 0 <= c < 256 -> Z.land c 63 = c mod 64 /\ 0 <= c mod 64 < 64.
Proof.
  intros Hc. change 63 with (Z.ones 6). rewrite Z.land_ones by lia. change (2 ^ 6) with 64.
  split; [reflexivity | apply Z.mod_pos_bound; lia].
Qed.

Lemma lor_small (x y p q : nat) :
  (x < p)%nat -> (y < q)%nat -> (p = 4 /\ q = 16)%nat \/ (p = 16 /\ q = 4)%nat ->
  Z.lor (Z.of_nat x * Z.of_nat q) (Z.of_nat y) = Z.of_nat x * Z.of_nat q + Z.of_nat y.
Proof.
  intros Hx Hy [[-> ->]|[-> ->]].
  - do 4 (destruct x as [|x]; [do 16 (destruct y as [|y]; [reflexivity|]); lia|]); lia.
  - do 16 (destruct x as [|x]; [do 4 (destruct y as [|y]; [reflexivity|]); lia|]); lia.
Qed.

Lemma sextet_mix (a b : Z) (k : Z) :
  0 <= a < 256 -> 0 <= b < 256 -> k = 2 \/ k = 4 ->
  Z.lor (Z.shiftl (Z.land a (Z.ones k)) (6 - k)) (Z.shiftr b (k + 2))
  = (a mod 2 ^ k) * 2 ^ (6 - k) + b / 2 ^ (k + 2)
  /\ 0 <= (a mod 2 ^ k) * 2 ^ (6 - k) + b / 2 ^ (k + 2) < 64.
Proof.
  intros Ha Hb Hk.
  rewrite Z.land_ones, Z.shiftl_mul_pow2, Z.shiftr_div_pow2 by lia.
  assert (Hx : 0 <= a mod 2 ^ k < 2 ^ k) by (apply Z.mod_pos_bound; destruct Hk; subst; lia).
  assert (Hy : 0 <= b / 2 ^ (k + 2) < 2 ^ (6 - k)).
  { destruct Hk; subst k; simpl; split;
      try (apply Z.div_pos; lia); apply Z.div_lt_upper_bound; lia. }
  set (x := a mod 2 ^ k) in *. set (y := b / 2 ^ (k + 2)) in *.
  split; [|destruct Hk; subst k; simpl in *; lia].
  replace x with (Z.of_nat (Z.to_nat x)) by lia.
  replace y with (Z.of_nat (Z.to_nat y)) by lia.
  replace (2 ^ (6 - k)) with (Z.of_nat (Z.to_nat (2 ^ (6 - k)))) by lia.
  apply (lor_small _ _ (Z.to_nat (2 ^ k))); [lia | lia |].
  destruct Hk; subst k; [left | right]; split; reflexivity.
Qed.

Lemma sextet_pad (a : Z) (k : Z) :
  0 <= a < 256 -> k = 2 \/ k = 4 ->
  Z.shiftl (Z.land a (Z.ones k)) (6 - k) = (a mod 2 ^ k) * 2 ^ (6 - k)
  /\ 0 <= (a mod 2 ^ k) * 2 ^ (6 - k) < 64.
Proof.
  intros Ha Hk.
  rewrite Z.land_ones, Z.shiftl_mul_pow2 by lia.
  split; [reflexivity|].
  assert (Hx : 0 <= a mod 2 ^ k < 2 ^ k) by (apply Z.mod_pos_bound; destruct Hk; subst; lia).
  destruct Hk; subst k; simpl in *; lia.
Qed.

Lemma base64UrlEncode_bytes (bytes : list byte) :
  base64UrlEncode (string_of_list_byte bytes) = base64url_nopad bytes.
Proof.
  unfold base64UrlEncode. fold (url_safe (btoa (string_of_list_byte bytes))).
  induction bytes as [|x|x y|x y z rest IH] using list_ind3.
  - reflexivity.
  - cbn [string_of_list_byte string_of_list_ascii List.map btoa base64url_nopad]. rewrite charCode_of_byte.
    pose proof (byte_val_range x) as Hx.
    destruct (sextet_hi _ Hx) as [-> ?].
    destruct (sextet_pad _ 2 Hx (or_introl eq_refl)) as [E1 ?].
    change (Z.ones 2) with 3 in E1. change (6 - 2) with 4 in E1.
    rewrite E1. change (2 ^ 2) with 4 in *. change (2 ^ 4) with 16 in *.
    rewrite !url_safe_digit by assumption. reflexivity.
  - cbn [string_of_list_byte string_of_list_ascii List.map btoa base64url_nopad]. rewrite !charCode_of_byte.
    pose proof (byte_val_range x) as Hx. pose proof (byte_val_range y) as Hy.
    destruct (sextet_hi _ Hx) as [-> ?].
    destruct (sextet_mix _ _ 2 Hx Hy (or_introl eq_refl)) as [E1 ?].
    destruct (sextet_pad _ 4 Hy (or_intror eq_refl)) as [E2 ?].
    change (Z.ones 2) with 3 in E1. change (Z.ones 4) with 15 in E2.
    change (6 - 2) with 4 in *. change (6 - 4) with 2 in *. change (2 + 2) with 4 in *.
    rewrite E1, E2.
    change (2 ^ 2) with 4 in *. change (2 ^ 4) with 16 in *.
    rewrite !url_safe_digit by assumption. reflexivity.
  - cbn [string_of_list_byte string_of_list_ascii List.map btoa base64url_nopad]. rewrite !charCode_of_byte.
    pose proof (byte_val_range x) as Hx. pose proof (byte_val_range y) as Hy.
    pose proof (byte_val_range z) as Hz.
    destruct (sextet_hi _ Hx) as [-> ?].
    destruct (sextet_mix _ _ 2 Hx Hy (or_introl eq_refl)) as [E1 ?].
    destruct (sextet_mix _ _ 4 Hy Hz (or_intror eq_refl)) as [E2 ?].
    destruct (sextet_lo _ Hz) as [-> ?].
    change (Z.ones 2) with 3 in E1. change (Z.ones 4) with 15 in E2.
    change (6 - 2) with 4 in *. change (6 - 4) with 2 in *.
    change (2 + 2) with 4 in *. change (4 + 2) with 6 in *.
    rewrite E1, E2.
    change (2 ^ 2) with 4 in *. change (2 ^ 4) with 16 in *. change (2 ^ 6) with 64 in *.
    rewrite !url_safe_digit by assumption.
    fold (string_of_list_byte rest). rewrite IH. reflexivity.
Qed.

(** C5: for every verifier, [generateCodeChallenge] returns the unpadded
    base64url encoding of the SHA-256 digest of the verifier's UTF-8 bytes,
    and touches neither the session nor the network. *)
Theorem generateCodeChallenge_is_base64url_sha256 :
  forall (rt : Runtime) (verifier : string) (w : World),
    generateCodeChallenge rt verifier w
    = (inr (base64url_nopad (SHA256 rt (TextEncoder_encode rt verifier))), w).
Proof.
  intros rt verifier w. unfold generateCodeChallenge, convertBufferToString, ret.
  rewrite base64UrlEncode_bytes. reflexivity.
Qed.

(** ** The token session store *)

Lemma getCustomerTokens_eq (w : World) :
  getCustomerTokens w = (inr (stored_tokens (session w)), w).
Proof.
  unfold getCustomerTokens, stored_tokens, bind, session_get, ret.
  destruct (session w !! ACCESS_TOKEN) as [a|],
           (session w !! REFRESH_TOKEN) as [r|],
           (session w !! ID_TOKEN) as [i|],
           (session w !! EXPIRES_AT) as [e|]; cbn;
    repeat match goal with
           | |- context [truthy ?v] => destruct (truthy v); cbn
           end; reflexivity.
Qed.

Lemma holds_tokens (w : World) (tokens : option CustomerTokens) :
  getCustomerTokens w = (inr tokens, w) -> stored_tokens (session w) = tokens.
Proof.
  rewrite getCustomerTokens_eq. intros H. injection H. auto.
Qed.

Lemma isTokenExpired_eq (rt : Runtime) (v : value) (w : World) :
  isTokenExpired rt v w = (inr (number_ge rt (clock rt (ticks w)) v), tick w).
Proof. reflexivity. Qed.

Lemma isCustomerAuthenticated_eq (rt : Runtime) (w : World) :
  isCustomerAuthenticated rt w =
  match stored_tokens (session w) with
  | None => (inr false, w)
  | Some tokens => (inr (negb (number_ge rt (clock rt (ticks w)) (expiresAt tokens))), tick w)
  end.
Proof.
  unfold isCustomerAuthenticated, bind. rewrite getCustomerTokens_eq.
  destruct (stored_tokens (session w)); reflexivity.
Qed.

(** C4: on a session that holds a complete token set whose expiry is the
    timestamp [e], [isCustomerAuthenticated] answers [true] exactly when the
    reading of [Date.now()] it makes is strictly below [e]; at a reading equal
    to [e] it answers [false]; and it changes neither the session nor the
    network log. *)
Theorem isCustomerAuthenticated_iff_before_expiry :
  forall (rt : Runtime) (w : World) (tokens : CustomerTokens) (e : Z),
    getCustomerTokens w = (inr (Some tokens), w) ->
    expiresAt tokens = VNum e ->
    let now := clock rt (ticks w) in
    (fst (isCustomerAuthenticated rt w) = inr true <-> now < e)
    /\ (now = e -> fst (isCustomerAuthenticated rt w) = inr false)
    /\ snd (isCustomerAuthenticated rt w) = tick w.
Proof.
  intros rt w tokens e Hheld He now.
  apply holds_tokens in Hheld.
  rewrite isCustomerAuthenticated_eq, Hheld, He. cbn [fst snd number_ge].
  fold now. repeat split.
  - intros H. injection H as H. apply negb_true_iff in H. lia.
  - intros H. f_equal. apply negb_true_iff. lia.
  - intros ->. f_equal. apply negb_false_iff. lia.
Qed.

Lemma isCustomerAuthenticated_iff_before_expiry_witness :
  (fst (isCustomerAuthenticated Sample.rt_granted Sample.fresh) = inr true
   <-> clock Sample.rt_granted (ticks Sample.fresh) < 2000)
  /\ (clock Sample.rt_granted (ticks Sample.fresh) = 2000 ->
      fst (isCustomerAuthenticated Sample.rt_granted Sample.fresh) = inr false)
  /\ snd (isCustomerAuthenticated Sample.rt_granted Sample.fresh) = tick Sample.fresh.
Proof.
  apply (isCustomerAuthenticated_iff_before_expiry Sample.rt_granted Sample.fresh
           (Sample.held 2000) 2000).
  - vm_compute. reflexivity.
  - reflexivity.
Defined.

Lemma getValidAccessToken_unexpired (rt : Runtime) (shopDomain clientId : string)
      (w : World) (tokens : CustomerTokens) :
  stored_tokens (session w) = Some tokens ->
  number_ge rt (clock rt (ticks w)) (expiresAt tokens) = false ->
  getValidAccessToken rt shopDomain clientId w = (inr (Some (accessToken tokens)), tick w).
Proof.
  intros Hheld Hfresh.
  unfold getValidAccessToken, bind. rewrite getCustomerTokens_eq, Hheld.
  rewrite isTokenExpired_eq, Hfresh. reflexivity.
Qed.

Lemma optionalAuth_unexpired (rt : Runtime) (env : Env) (w : World) (tokens : CustomerTokens) :
  stored_tokens (session w) = Some tokens ->
  number_ge rt (clock rt (ticks w)) (expiresAt tokens) = false ->
  number_ge rt (clock rt (S (ticks w))) (expiresAt tokens) = false ->
  optionalAuth rt env w =
  if config_missing env then (inr None, w)
  else (inr (Some (accessToken tokens)), tick (tick w)).
Proof.
  intros Hheld H0 H1. unfold optionalAuth. fold (config_missing env).
  destruct (config_missing env); [reflexivity|].
  unfold bind. rewrite isCustomerAuthenticated_eq, Hheld, H0. cbn [negb].
  unfold try_catch.
  rewrite (getValidAccessToken_unexpired rt _ _ (tick w) tokens Hheld H1). reflexivity.
Qed.

Lemma optionalAuth_twice (rt : Runtime) (env : Env) (w : World) (tokens : CustomerTokens) :
  stored_tokens (session w) = Some tokens ->
  (forall n, (n < 4)%nat ->
             number_ge rt (clock rt (ticks w + n)) (expiresAt tokens) = false) ->
  let first := optionalAuth rt env w in
  let second := optionalAuth rt env (snd first) in
  fst second = fst first
  /\ calls (snd second) = calls (snd first)
  /\ calls (snd first) = calls w.
Proof.
  intros Hheld Hfresh first second.
  assert (E : first = if config_missing env then (inr None, w)
                      else (inr (Some (accessToken tokens)), tick (tick w))).
  { apply optionalAuth_unexpired; [assumption| |].
    - rewrite <- (Nat.add_0_r (ticks w)). apply Hfresh. lia.
    - rewrite <- (Nat.add_1_r (ticks w)). apply Hfresh. lia. }
  subst second. rewrite E. clear E first.
  destruct (config_missing env) eqn:Hc; cbn [snd fst].
  - unfold optionalAuth. fold (config_missing env). rewrite Hc. auto.
  - rewrite (optionalAuth_unexpired rt env (tick (tick w)) tokens Hheld), Hc.
    + auto.
    + cbn [ticks tick]. replace (S (S (ticks w))) with (ticks w + 2)%nat by lia.
      apply Hfresh. lia.
    + cbn [ticks tick]. replace (S (S (S (ticks w)))) with (ticks w + 3)%nat by lia.
      apply Hfresh. lia.
Qed.

(** C8: [getValidAccessToken] on a session whose token set is unexpired at
    the reading of the clock returns the stored access token and leaves the
    network log as it was; on a session without a token set it returns
    [null] and leaves the whole world as it was; and of two consecutive
    [optionalAuth] calls during which the token set stays unexpired, the
    second returns what the first did and adds no call to the network log
    (nor does the first). *)
Theorem getValidAccessToken_cached_without_network :
  forall (rt : Runtime) (shopDomain clientId : string) (env : Env) (w : World),
    (forall tokens,
        getCustomerTokens w = (inr (Some tokens), w) ->
        number_ge rt (clock rt (ticks w)) (expiresAt tokens) = false ->
        fst (getValidAccessToken rt shopDomain clientId w) = inr (Some (accessToken tokens))
        /\ calls (snd (getValidAccessToken rt shopDomain clientId w)) = calls w)
    /\ (getCustomerTokens w = (inr None, w) ->
        getValidAccessToken rt shopDomain clientId w = (inr None, w))
    /\ (forall tokens,
        getCustomerTokens w = (inr (Some tokens), w) ->
        (forall n, (n < 4)%nat ->
                   number_ge rt (clock rt (ticks w + n)) (expiresAt tokens) = false) ->
        let first := optionalAuth rt env w in
        let second := optionalAuth rt env (snd first) in
        fst second = fst first
        /\ calls (snd second) = calls (snd first)
        /\ calls (snd first) = calls w).
Proof.
  intros rt shopDomain clientId env w. split; [|split].
  - intros tokens Hheld Hfresh. apply holds_tokens in Hheld.
    rewrite (getValidAccessToken_unexpired rt _ _ w tokens Hheld Hfresh). split; reflexivity.
  - intros Hnone. apply holds_tokens in Hnone.
    unfold getValidAccessToken, bind. rewrite getCustomerTokens_eq, Hnone. reflexivity.
  - intros tokens Hheld Hfresh. apply holds_tokens in Hheld.
    apply (optionalAuth_twice rt env w tokens Hheld Hfresh).
Qed.

Lemma getValidAccessToken_cached_without_network_witness :
  (fst (getValidAccessToken Sample.rt_granted "shop.example.com" "client-1" Sample.fresh)
   = inr (Some (VStr "A"))
   /\ calls (snd (getValidAccessToken Sample.rt_granted "shop.example.com" "client-1"
                    Sample.fresh))
      = calls Sample.fresh)
  /\ getValidAccessToken Sample.rt_granted "shop.example.com" "client-1" Sample.anonymous
     = (inr None, Sample.anonymous)
  /\ (let first := optionalAuth Sample.rt_granted Sample.env Sample.fresh in
      let second := optionalAuth Sample.rt_granted Sample.env (snd first) in
      fst second = fst first
      /\ calls (snd second) = calls (snd first)
      /\ calls (snd first) = calls Sample.fresh).
Proof.
  split; [|split].
  - apply (proj1 (getValidAccessToken_cached_without_network Sample.rt_granted
                    "shop.example.com" "client-1" Sample.env Sample.fresh)
                 (Sample.held 2000)).
    + vm_compute. reflexivity.
    + vm_compute. reflexivity.
  - apply (proj1 (proj2 (getValidAccessToken_cached_without_network Sample.rt_granted
                           "shop.example.com" "client-1" Sample.env Sample.anonymous))).
    vm_compute. reflexivity.
  - apply (proj2 (proj2 (getValidAccessToken_cached_without_network Sample.rt_granted
                           "shop.example.com" "client-1" Sample.env Sample.fresh))
                 (Sample.held 2000)).
    + vm_compute. reflexivity.
    + intros n Hn. do 4 (destruct n as [|n]; [vm_compute; reflexivity|]). lia.
Defined.

(** *** Network calls leave the session and the clock alone *)

Lemma fetch_same_session (rt : Runtime) (req : FetchRequest) (w : World) :
  same_session w (snd (fetch rt req w)).
Proof.
  unfold fetch. destruct (network rt _ req); split; reflexivity.
Qed.

Lemma response_json_world {A} (decode : string -> option A) (r : Response) (w : World) :
  snd (response_json decode r w) = w.
Proof.
  unfold response_json. destruct (decode (body r)); reflexivity.
Qed.

Ltac fetch_then_decode rt w :=
  unfold bind;
  match goal with
  | |- context [fetch rt ?req w] =>
      pose proof (fetch_same_session rt req w) as Hsame;
      destruct (fetch rt req w) as [[e|response] w1]; cbn [snd] in Hsame;
      [exact Hsame|];
      destruct (negb (ok response)); [exact Hsame|];
      rewrite response_json_world; exact Hsame
  end.

Lemma discoverAuthEndpoints_same_session (rt : Runtime) (shopDomain : string) (w : World) :
  same_session w (snd (discoverAuthEndpoints rt shopDomain w)).
Proof. unfold discoverAuthEndpoints. fetch_then_decode rt w. Qed.

Lemma refreshAccessToken_same_session (rt : Runtime) (params : RefreshTokenParams) (w : World) :
  same_session w (snd (refreshAccessToken rt params w)).
Proof. unfold refreshAccessToken. fetch_then_decode rt w. Qed.

Lemma exchangeCodeForToken_same_session (rt : Runtime) (params : TokenRequestParams) (w : World) :
  same_session w (snd (exchangeCodeForToken rt params w)).
Proof. unfold exchangeCodeForToken. fetch_then_decode rt w. Qed.

Lemma refresh_attempt_same_session (rt : Runtime) (shopDomain clientId : string)
      (tokens : CustomerTokens) (w : World) :
  same_session w (snd (refresh_attempt rt shopDomain clientId tokens w)).
Proof.
  unfold refresh_attempt, bind.
  pose proof (discoverAuthEndpoints_same_session rt shopDomain w) as [Hs Ht].
  destruct (discoverAuthEndpoints rt shopDomain w) as [[e|authConfig] w1]; cbn [snd] in *.
  - split; assumption.
  - match goal with
    | |- context [refreshAccessToken rt ?p w1] =>
        pose proof (refreshAccessToken_same_session rt p w1) as [Hs' Ht'];
        destruct (refreshAccessToken rt p w1) as [[e|newTokens] w2]; cbn [snd] in *
    end; split; congruence.
Qed.

(** [getValidAccessToken] on an expired token set, in terms of the outcome of
    the refresh attempt. *)
Lemma getValidAccessToken_expired (rt : Runtime) (shopDomain clientId : string)
      (w : World) (tokens : CustomerTokens) :
  stored_tokens (session w) = Some tokens ->
  number_ge rt (clock rt (ticks w)) (expiresAt tokens) = true ->
  getValidAccessToken rt shopDomain clientId w =
  match refresh_attempt rt shopDomain clientId tokens (tick w) with
  | (inr newTokens, w1) =>
      (inr (Some (VStr (r_access_token newTokens))),
       tick (with_session
               (<[EXPIRES_AT := VNum (clock rt (ticks w1) + r_expires_in newTokens * 1000)]>
                  (<[REFRESH_TOKEN := VStr (r_refresh_token newTokens)]>
                     (<[ACCESS_TOKEN := VStr (r_access_token newTokens)]>
                        (session w1)))) w1))
  | (inl _, w1) =>
      (inr None,
       with_session
         (delete NONCE (delete STATE (delete CODE_VERIFIER (delete EXPIRES_AT
            (delete ID_TOKEN (delete REFRESH_TOKEN (delete ACCESS_TOKEN (session w1)))))))) w1)
  end.
Proof.
  intros Hheld Hexpired.
  unfold getValidAccessToken, bind at 1. rewrite getCustomerTokens_eq, Hheld.
  unfold bind at 1. rewrite isTokenExpired_eq, Hexpired. cbn [negb].
  unfold try_catch, refresh_attempt, bind.
  destruct (discoverAuthEndpoints rt shopDomain (tick w)) as [[e|authConfig] w1];
    [reflexivity|].
  destruct (refreshAccessToken rt _ w1) as [[e|newTokens] w2]; [reflexivity|].
  reflexivity.
Qed.

(** C9: when the token set is expired and the refresh attempt succeeds,
    [getValidAccessToken] returns the new access token, and the session it
    leaves is the old one with the access-token, refresh-token and expiry
    keys overwritten (the expiry from the clock reading made after the
    exchange); the identity-token key, like every other key, reads as
    before. *)
Theorem refresh_success_overwrites_three_keys :
  forall (rt : Runtime) (shopDomain clientId : string) (w : World)
         (tokens : CustomerTokens) (newTokens : RefreshedTokenResponse) (w1 : World),
    getCustomerTokens w = (inr (Some tokens), w) ->
    number_ge rt (clock rt (ticks w)) (expiresAt tokens) = true ->
    refresh_attempt rt shopDomain clientId tokens (tick w) = (inr newTokens, w1) ->
    let result := getValidAccessToken rt shopDomain clientId w in
    fst result = inr (Some (VStr (r_access_token newTokens)))
    /\ session (snd result)
       = <[EXPIRES_AT := VNum (clock rt (S (ticks w)) + r_expires_in newTokens * 1000)]>
           (<[REFRESH_TOKEN := VStr (r_refresh_token newTokens)]>
              (<[ACCESS_TOKEN := VStr (r_access_token newTokens)]> (session w)))
    /\ session (snd result) !! ID_TOKEN = session w !! ID_TOKEN
    /\ (forall key, key <> ACCESS_TOKEN -> key <> REFRESH_TOKEN -> key <> EXPIRES_AT ->
                    session (snd result) !! key = session w !! key).
Proof.
  intros rt shopDomain clientId w tokens newTokens w1 Hheld Hexpired Hrefresh result.
  apply holds_tokens in Hheld.
  pose proof (refresh_attempt_same_session rt shopDomain clientId tokens (tick w)) as [Hs Ht].
  subst result.
  rewrite (getValidAccessToken_expired rt _ _ w tokens Hheld Hexpired).
  rewrite Hrefresh in *. cbn [fst snd session tick with_session ticks] in *.
  rewrite Hs, Ht.
  assert (Hframe : forall key, key <> ACCESS_TOKEN -> key <> REFRESH_TOKEN ->
                               key <> EXPIRES_AT ->
            <[EXPIRES_AT := VNum (clock rt (S (ticks w)) + r_expires_in newTokens * 1000)]>
              (<[REFRESH_TOKEN := VStr (r_refresh_token newTokens)]>
                 (<[ACCESS_TOKEN := VStr (r_access_token newTokens)]> (session w))) !! key
            = session w !! key).
  { intros key Ha Hr He. rewrite !lookup_insert_ne by congruence. reflexivity. }
  repeat split.
  - apply Hframe; discriminate.
  - exact Hframe.
Qed.

Lemma refresh_success_overwrites_three_keys_witness :
  fst (getValidAccessToken Sample.rt_granted "shop.example.com" "client-1" Sample.expired)
  = inr (Some (VStr "A2"))
  /\ session (snd (getValidAccessToken Sample.rt_granted "shop.example.com" "client-1"
                     Sample.expired))
     = <[EXPIRES_AT := VNum (clock Sample.rt_granted 1 + 3600 * 1000)]>
         (<[REFRESH_TOKEN := VStr "R2"]>
            (<[ACCESS_TOKEN := VStr "A2"]> (session Sample.expired)))
  /\ session (snd (getValidAccessToken Sample.rt_granted "shop.example.com" "client-1"
                     Sample.expired)) !! ID_TOKEN
     = session Sample.expired !! ID_TOKEN
  /\ (forall key, key <> ACCESS_TOKEN -> key <> REFRESH_TOKEN -> key <> EXPIRES_AT ->
                  session (snd (getValidAccessToken Sample.rt_granted "shop.example.com"
                                  "client-1" Sample.expired)) !! key
                  = session Sample.expired !! key).
Proof.
  apply (refresh_success_overwrites_three_keys Sample.rt_granted
           "shop.example.com" "client-1" Sample.expired (Sample.held 990) Sample.refreshed
           (snd (refresh_attempt Sample.rt_granted "shop.example.com" "client-1"
                   (Sample.held 990) (tick Sample.expired)))).
  - vm_compute. reflexivity.
  - vm_compute. reflexivity.
  - vm_compute. reflexivity.
Defined.

(** C3: when the token set is expired and the refresh attempt fails,
    whatever the failure, [getValidAccessToken] returns [null] and leaves a
    session from which all seven keys are gone, every other key reading as
    before. *)
Theorem refresh_failure_clears_session :
  forall (rt : Runtime) (shopDomain clientId : string) (w : World)
         (tokens : CustomerTokens) (failure : exn) (w1 : World),
    getCustomerTokens w = (inr (Some tokens), w) ->
    number_ge rt (clock rt (ticks w)) (expiresAt tokens) = true ->
    refresh_attempt rt shopDomain clientId tokens (tick w) = (inl failure, w1) ->
    let result := getValidAccessToken rt shopDomain clientId w in
    fst result = inr None
    /\ Forall (fun key => session (snd result) !! key = None)
              (token_keys ++ in_flight_keys)
    /\ (forall key, ~ In key (token_keys ++ in_flight_keys) ->
                    session (snd result) !! key = session w !! key).
Proof.
  intros rt shopDomain clientId w tokens failure w1 Hheld Hexpired Hrefresh result.
  apply holds_tokens in Hheld.
  pose proof (refresh_attempt_same_session rt shopDomain clientId tokens (tick w)) as [Hs Ht].
  subst result.
  rewrite (getValidAccessToken_expired rt _ _ w tokens Hheld Hexpired).
  rewrite Hrefresh in *. cbn [fst snd session tick with_session ticks] in *.
  rewrite Hs. split; [reflexivity|]. unfold token_keys, in_flight_keys. split.
  - repeat constructor;
      repeat first [ apply lookup_delete_eq
                   | rewrite lookup_delete_ne by discriminate ].
  - intros key Hkey. cbn [In app] in Hkey.
    rewrite !lookup_delete_ne by intuition congruence. reflexivity.
Qed.

Lemma refresh_failure_clears_session_witness :
  fst (getValidAccessToken Sample.rt_rejected "shop.example.com" "client-1" Sample.expired)
  = inr None
  /\ Forall (fun key =>
               session (snd (getValidAccessToken Sample.rt_rejected "shop.example.com"
                               "client-1" Sample.expired)) !! key = None)
            (token_keys ++ in_flight_keys)
  /\ (forall key, ~ In key (token_keys ++ in_flight_keys) ->
                  session (snd (getValidAccessToken Sample.rt_rejected "shop.example.com"
                                  "client-1" Sample.expired)) !! key
                  = session Sample.expired !! key).
Proof.
  apply (refresh_failure_clears_session Sample.rt_rejected
           "shop.example.com" "client-1" Sample.expired (Sample.held 990)
           (Error "Token refresh failed: 400 - invalid_grant")
           (snd (refresh_attempt Sample.rt_rejected "shop.example.com" "client-1"
                   (Sample.held 990) (tick Sample.expired)))).
  - vm_compute. reflexivity.
  - vm_compute. reflexivity.
  - vm_compute. reflexivity.
Defined.

(** ** The optional guard *)

(** C6, as the code has it: on a session whose token set is expired at the
    guard's reading of the clock, [optionalAuth] returns [null] without a
    refresh attempt: no call is added to the network log and the session is
    left as it was, whether or not the configuration is complete. *)
Theorem optionalAuth_expired_is_absent_without_refresh :
  forall (rt : Runtime) (env : Env) (w : World) (tokens : CustomerTokens),
    getCustomerTokens w = (inr (Some tokens), w) ->
    number_ge rt (clock rt (ticks w)) (expiresAt tokens) = true ->
    fst (optionalAuth rt env w) = inr None
    /\ calls (snd (optionalAuth rt env w)) = calls w
    /\ session (snd (optionalAuth rt env w)) = session w.
Proof.
  intros rt env w tokens Hheld Hexpired. apply holds_tokens in Hheld.
  unfold optionalAuth. fold (config_missing env).
  destruct (config_missing env); [repeat split|].
  unfold bind. rewrite isCustomerAuthenticated_eq, Hheld, Hexpired.
  repeat split.
Qed.

Lemma optionalAuth_expired_is_absent_without_refresh_witness :
  fst (optionalAuth Sample.rt_granted Sample.env Sample.expired) = inr None
  /\ calls (snd (optionalAuth Sample.rt_granted Sample.env Sample.expired))
     = calls Sample.expired
  /\ session (snd (optionalAuth Sample.rt_granted Sample.env Sample.expired))
     = session Sample.expired.
Proof.
  apply (optionalAuth_expired_is_absent_without_refresh Sample.rt_granted Sample.env
           Sample.expired (Sample.held 990)).
  - vm_compute. reflexivity.
  - vm_compute. reflexivity.
Defined.

(** C6 fails as stated: with the configuration complete, a token set that
    expired at 990 and a provider that grants the refresh, the requiring
    guard [getAuthenticatedToken] refreshes (two network calls) and returns
    the new token, while [optionalAuth] returns [null] and calls nothing. *)
Lemma optionalAuth_expired_counterexample :
  fst (getAuthenticatedToken Sample.rt_granted Sample.env Sample.expired) = inr (VStr "A2")
  /\ List.length (calls (snd (getAuthenticatedToken Sample.rt_granted Sample.env
                                Sample.expired))) = 2%nat
  /\ fst (optionalAuth Sample.rt_granted Sample.env Sample.expired) = inr None
  /\ calls (snd (optionalAuth Sample.rt_granted Sample.env Sample.expired)) = [].
Proof.
  vm_compute. repeat split.
Qed.

(** ** Logout *)

Lemma logout_loader_session (rt : Runtime) (request : Request) (env : Env) (w : World) :
  truthy_str (PUBLIC_STORE_DOMAIN env) = true ->
  session (snd (logout_loader rt request env w))
  = delete EXPIRES_AT (delete ID_TOKEN (delete REFRESH_TOKEN (delete ACCESS_TOKEN (session w)))).
Proof.
  intros Hdomain. unfold logout_loader. rewrite Hdomain. cbn [negb].
  unfold bind, session_get, session_unset, try_catch, session_commit, ret, throw.
  cbn [snd fst].
  destruct (session w !! ID_TOKEN) as [idToken|]; [|reflexivity].
  destruct (truthy idToken); [|reflexivity].
  match goal with
  | |- context [discoverAuthEndpoints rt ?d ?w0] =>
      pose proof (discoverAuthEndpoints_same_session rt d w0) as [Hs _];
      destruct (discoverAuthEndpoints rt d w0) as [[e|authConfig] w1]
  end; cbn [snd] in Hs; cbn [with_session session] in Hs.
  - cbn. exact Hs.
  - destruct (buildLogoutUrl rt _); cbn; exact Hs.
Qed.

Lemma logout_loader_frame (rt : Runtime) (request : Request) (env : Env) (w : World) :
  forall key, ~ In key token_keys ->
              session (snd (logout_loader rt request env w)) !! key = session w !! key.
Proof.
  intros key Hkey.
  destruct (truthy_str (PUBLIC_STORE_DOMAIN env)) eqn:Hdomain.
  - rewrite (logout_loader_session rt request env w Hdomain).
    cbn [In token_keys] in Hkey.
    rewrite !lookup_delete_ne by intuition congruence. reflexivity.
  - unfold logout_loader. rewrite Hdomain. reflexivity.
Qed.

(** C10: whatever the logout route does, every key other than the four token
    keys reads afterwards as it did before, the code-verifier, state and
    nonce keys among them; once the route is past its configuration check,
    the four token keys read as unset; [clearCustomerSession], in contrast,
    leaves all seven keys unset. *)
Theorem logout_unsets_only_token_keys :
  forall (rt : Runtime) (request : Request) (env : Env) (w : World),
    Forall (fun key => session (snd (logout_loader rt request env w)) !! key
                       = session w !! key)
           in_flight_keys
    /\ (forall key, ~ In key token_keys ->
                    session (snd (logout_loader rt request env w)) !! key = session w !! key)
    /\ (truthy_str (PUBLIC_STORE_DOMAIN env) = true ->
        Forall (fun key => session (snd (logout_loader rt request env w)) !! key = None)
               token_keys)
    /\ Forall (fun key => session (snd (clearCustomerSession w)) !! key = None)
              (token_keys ++ in_flight_keys).
Proof.
  intros rt request env w.
  split; [|split; [|split]].
  - repeat constructor; apply logout_loader_frame; cbn; intuition discriminate.
  - apply logout_loader_frame.
  - intros Hdomain. rewrite (logout_loader_session rt request env w Hdomain).
    repeat constructor;
      repeat first [ apply lookup_delete_eq
                   | rewrite lookup_delete_ne by discriminate ].
  - cbn. repeat constructor;
      repeat first [ apply lookup_delete_eq
                   | rewrite lookup_delete_ne by discriminate ].
Qed.

Lemma logout_unsets_only_token_keys_witness :
  truthy_str (PUBLIC_STORE_DOMAIN Sample.env) = true
  /\ Forall (fun key => session (snd (logout_loader Sample.rt_granted (Sample.request [])
                                        Sample.env Sample.fresh)) !! key = None)
            token_keys.
Proof.
  split; [reflexivity|].
  apply (logout_unsets_only_token_keys Sample.rt_granted (Sample.request [])
           Sample.env Sample.fresh).
  reflexivity.
Defined.

(** ** The identity-token decoder *)

Lemma str_truthy_iff (s : string) : str_truthy s = true <-> s <> EmptyString.
Proof. destruct s; cbn; split; congruence. Qed.

Lemma JSON_parse_atob_not_malformed (rt : Runtime) (segment : string) :
  JSON_parse_atob rt segment <> inl malformed_token.
Proof.
  unfold JSON_parse_atob.
  destruct (atob rt segment) as [text|]; [|discriminate].
  destruct (JSON_parse rt text); discriminate.
Qed.

Lemma decodeJwt_malformed_leading (rt : Runtime) (token : string) :
  decodeJwt rt token = inl malformed_token <-> ~ three_leading_segments token.
Proof.
  unfold decodeJwt, three_leading_segments.
  destruct (split "." token) as [|h [|p [|sg rest]]]; cbn [nth_error truthy_str negb orb].
  - split; [intros _ (? & ? & ? & ? & ? & _); discriminate | reflexivity].
  - rewrite orb_true_r. split; [intros _ (? & ? & ? & ? & ? & _); discriminate | reflexivity].
  - rewrite orb_true_r. split; [intros _ (? & ? & ? & ? & ? & _); discriminate | reflexivity].
  - destruct (str_truthy h) eqn:Hh, (str_truthy p) eqn:Hp, (str_truthy sg) eqn:Hs;
      cbn [negb orb];
      try (split; [|reflexivity];
           intros _ (h' & p' & sg' & rest' & E & Hh' & Hp' & Hs');
           injection E as -> -> -> ->;
           apply str_truthy_iff in Hh', Hp', Hs'; congruence).
    split.
    + intros Hfail. exfalso.
      pose proof (JSON_parse_atob_not_malformed rt h) as Nh.
      pose proof (JSON_parse_atob_not_malformed rt p) as Np.
      destruct (JSON_parse_atob rt h) as [e|dh]; [congruence|].
      destruct (JSON_parse_atob rt p) as [e|dp]; [congruence|].
      discriminate.
    + intros Hnot. exfalso. apply Hnot. exists h, p, sg, rest.
      repeat split; apply str_truthy_iff; assumption.
Qed.

(** C7, as the code has it: [decodeJwt] fails with the malformed-token error
    exactly when one of the first three dot-separated segments is missing or
    empty; segments after the third are not looked at.  In particular every
    token with fewer than three segments fails with that error. *)
Theorem decodeJwt_malformed_iff :
  forall (rt : Runtime) (token : string),
    (decodeJwt rt token = inl malformed_token <-> ~ three_leading_segments token)
    /\ ((List.length (split "." token) < 3)%nat -> decodeJwt rt token = inl malformed_token).
Proof.
  intros rt token. split; [apply decodeJwt_malformed_leading|].
  intros Hshort. apply decodeJwt_malformed_leading. intros (h & p & sg & rest & E & _).
  rewrite E in Hshort. cbn in Hshort. lia.
Qed.

Lemma decodeJwt_malformed_iff_witness :
  (decodeJwt Sample.rt_granted "e30.e30" = inl malformed_token
   <-> ~ three_leading_segments "e30.e30")
  /\ decodeJwt Sample.rt_granted "e30.e30" = inl malformed_token.
Proof.
  split.
  - apply (decodeJwt_malformed_iff Sample.rt_granted "e30.e30").
  - apply (decodeJwt_malformed_iff Sample.rt_granted "e30.e30"). cbn. lia.
Defined.

(** C7 fails as stated: a token of four segments whose first three are not
    empty does not fail with the malformed-token error, under any runtime;
    under the sample runtime it decodes. *)
Lemma decodeJwt_four_segments_counterexample :
  List.length (split "." "e30.e30.S.extra") = 4%nat
  /\ (forall rt : Runtime, decodeJwt rt "e30.e30.S.extra" <> inl malformed_token)
  /\ decodeJwt Sample.rt_granted "e30.e30.S.extra"
     = inr {| header := JObj []; payload := JObj []; signature := "S" |}.
Proof.
  split; [reflexivity|]. split; [|reflexivity].
  intros rt Hfail.
  apply (decodeJwt_malformed_leading rt "e30.e30.S.extra") in Hfail. apply Hfail.
  exists "e30", "e30", "S", ["extra"]. repeat split; discriminate.
Qed.

(** ** The authorization callback *)

Lemma differs_from_stored_iff (state : string) (stored : option value) :
  differs_from_stored state stored = true <-> stored <> Some (VStr state).
Proof.
  unfold differs_from_stored. destruct stored as [[s|n]|]; try (split; congruence).
  destruct (String.eqb_spec state s) as [->|Hne]; cbn; split; congruence.
Qed.

(** C1, as the code has it: a callback that carries a code and a state and
    no error parameter, and whose state is not the stored one, ends in the
    [invalid_state] redirect with the world untouched: no call is added to
    the network log (so [exchangeCodeForToken] has not run) and the session
    is as before. *)
Theorem callback_state_mismatch_short_circuits :
  forall (rt : Runtime) (request : Request) (env : Env) (w : World)
         (code state : string),
    truthy_str (searchParams_get "error" request) = false ->
    searchParams_get "code" request = Some code -> code <> EmptyString ->
    searchParams_get "state" request = Some state -> state <> EmptyString ->
    session w !! STATE <> Some (VStr state) ->
    callback_loader rt request env w
    = (inr (redirect "/account/login?error=invalid_state"), w).
Proof.
  intros rt request env w code state Herror Hcode Hc Hstate Hs Hdiff.
  apply str_truthy_iff in Hc, Hs. apply differs_from_stored_iff in Hdiff.
  unfold callback_loader. rewrite Herror, Hcode, Hstate.
  unfold the. cbn [truthy_str from_option id]. rewrite Hc, Hs. cbn [negb orb].
  unfold bind, session_get. rewrite Hdiff. reflexivity.
Qed.

Lemma callback_state_mismatch_short_circuits_witness :
  callback_loader Sample.rt_granted Sample.forged_callback Sample.env Sample.pending
  = (inr (redirect "/account/login?error=invalid_state"), Sample.pending).
Proof.
  apply (callback_state_mismatch_short_circuits Sample.rt_granted Sample.forged_callback
           Sample.env Sample.pending "abc" "s2").
  - reflexivity.
  - reflexivity.
  - discriminate.
  - reflexivity.
  - discriminate.
  - vm_compute. discriminate.
Defined.

(** C1 fails as stated: a callback that carries a code, a state other than
    the stored one, and an error parameter ends in the redirect that echoes
    the error, not in [invalid_state]. *)
Lemma callback_state_mismatch_counterexample :
  searchParams_get "code" Sample.forged_callback_with_error = Some "abc"
  /\ searchParams_get "state" Sample.forged_callback_with_error = Some "s2"
  /\ session Sample.pending !! STATE = Some (VStr "s1")
  /\ callback_loader Sample.rt_granted Sample.forged_callback_with_error
       Sample.env Sample.pending
     = (inr (redirect "/account/login?error=access_denied"), Sample.pending)
  /\ redirect "/account/login?error=access_denied"
     <> redirect "/account/login?error=invalid_state".
Proof.
  repeat split; try (vm_compute; reflexivity). discriminate.
Qed.

Lemma differs_from_stored_same (state : string) :
  differs_from_stored state (Some (VStr state)) = false.
Proof. cbn. rewrite String.eqb_refl. reflexivity. Qed.

(** C2: in a callback that gets as far as a successful code exchange, when
    the session holds a nonce and the nonce of the returned identity token
    is not that nonce, the handler ends in the [invalid_nonce] redirect and
    the session is left exactly as it was: none of the access-token,
    refresh-token, identity-token and expiry keys is written. *)
Theorem callback_nonce_mismatch_discards_tokens :
  forall (rt : Runtime) (request : Request) (env : Env) (w w1 : World)
         (code state : string) (codeVerifier storedNonce : value)
         (tokenResponse : AccessTokenResponse) (tokenNonce : option json),
    truthy_str (searchParams_get "error" request) = false ->
    searchParams_get "code" request = Some code -> code <> EmptyString ->
    searchParams_get "state" request = Some state -> state <> EmptyString ->
    session w !! STATE = Some (VStr state) ->
    session w !! CODE_VERIFIER = Some codeVerifier -> truthy codeVerifier = true ->
    config_missing env = false ->
    truthy_str (shop_id_of env) = true ->
    exchangeCodeForToken rt
      {| tokenEndpoint :=
           "https://shopify.com/authentication/" ++ the (shop_id_of env) ++ "/oauth/token";
         clientId := the (or_str (PUBLIC_CUSTOMER_ACCOUNT_API_CLIENT_ID env)
                                 (CUSTOMER_ACCOUNT_CLIENT_ID env));
         redirectUri := origin request ++ "/account/authorize/callback";
         code := code;
         codeVerifier := codeVerifier |} w
    = (inr tokenResponse, w1) ->
    session w !! NONCE = Some storedNonce -> truthy storedNonce = true ->
    getNonce rt (id_token tokenResponse) = inr tokenNonce ->
    nonce_differs tokenNonce storedNonce = true ->
    fst (callback_loader rt request env w)
    = inr (redirect "/account/login?error=invalid_nonce")
    /\ session (snd (callback_loader rt request env w)) = session w
    /\ Forall (fun key => session (snd (callback_loader rt request env w)) !! key
                          = session w !! key)
              token_keys.
Proof.
  intros rt request env w w1 code state codeVerifier storedNonce tokenResponse tokenNonce
         Herror Hcode Hc Hstate Hs Hstored Hverifier Hv Hconfig Hshop Hexchange
         Hnonce Hn Hdecoded Hdiffers.
  apply str_truthy_iff in Hc, Hs.
  match type of Hexchange with
  | exchangeCodeForToken _ ?params _ = _ =>
      pose proof (exchangeCodeForToken_same_session rt params w) as Hsame
  end.
  rewrite Hexchange in Hsame. destruct Hsame as [Hsession _]. cbn [snd] in Hsession.
  assert (E : callback_loader rt request env w
              = (inr (redirect "/account/login?error=invalid_nonce"), w1)).
  { unfold callback_loader. rewrite Herror, Hcode, Hstate.
    unfold the in *. cbn [truthy_str from_option id] in *. rewrite Hc, Hs. cbn [negb orb].
    unfold bind at 1. unfold session_get at 1. rewrite Hstored, differs_from_stored_same.
    unfold bind at 1. unfold session_get at 1. rewrite Hverifier, Hv. cbn [negb].
    unfold config_missing in Hconfig. rewrite Hconfig, Hshop. cbn [negb].
    unfold try_catch, bind at 1. rewrite Hexchange.
    unfold bind at 1. unfold session_get at 1. rewrite Hsession, Hnonce, Hn, Hdecoded, Hdiffers.
    reflexivity. }
  rewrite E. cbn [fst snd]. split; [reflexivity|]. split; [exact Hsession|].
  rewrite Hsession. repeat constructor.
Qed.

Lemma callback_nonce_mismatch_discards_tokens_witness :
  fst (callback_loader Sample.rt_granted Sample.genuine_callback Sample.env Sample.pending)
  = inr (redirect "/account/login?error=invalid_nonce")
  /\ session (snd (callback_loader Sample.rt_granted Sample.genuine_callback
                     Sample.env Sample.pending))
     = session Sample.pending
  /\ Forall (fun key => session (snd (callback_loader Sample.rt_granted
                                        Sample.genuine_callback Sample.env Sample.pending))
                        !! key
                        = session Sample.pending !! key)
            token_keys.
Proof.
  eapply (callback_nonce_mismatch_discards_tokens Sample.rt_granted Sample.genuine_callback
            Sample.env Sample.pending _ "abc" "s1" (VStr "xyz") (VStr "n1")
            Sample.issued (Some (JStr "n2"))).
  - reflexivity.
  - reflexivity.
  - discriminate.
  - reflexivity.
  - discriminate.
  - vm_compute. reflexivity.
  - vm_compute. reflexivity.
  - reflexivity.
  - reflexivity.
  - reflexivity.
  - vm_compute. reflexivity.
  - vm_compute. reflexivity.
  - reflexivity.
  - vm_compute. reflexivity.
  - reflexivity.
Defined.

(** * Further properties of the code *)

(** ** Splitting and joining *)

Lemma split_not_nil (sep : ascii) (s : string) : split sep s <> [].
Proof.
  induction s as [|c rest IH]; cbn; [discriminate|].
  destruct (Ascii.eqb c sep); [discriminate|].
  destruct (split sep rest); [contradiction | discriminate].
Qed.

Lemma join_cons (sep p : string) (rest : list string) :
  rest <> [] -> join sep (p :: rest) = p ++ sep ++ join sep rest.
Proof. destruct rest; [contradiction | reflexivity]. Qed.

Lemma join_split (sep : ascii) (s : string) :
  join (String sep EmptyString) (split sep s) = s.
Proof.
  induction s as [|c rest IH]; [reflexivity|]. cbn [split].
  destruct (Ascii.eqb_spec c sep) as [->|Hne].
  - rewrite join_cons by apply split_not_nil. rewrite IH. reflexivity.
  - pose proof (split_not_nil sep rest) as Hnil.
    destruct (split sep rest) as [|seg segs]; [contradiction|].
    destruct segs as [|seg' segs].
    + cbn in *. f_equal. exact IH.
    + rewrite join_cons by discriminate. rewrite join_cons in IH by discriminate.
      rewrite <- IH. reflexivity.
Qed.

Lemma split_segments_free (sep : ascii) (s : string) :
  Forall (fun seg => occurs sep seg = false) (split sep s).
Proof.
  induction s as [|c rest IH]; cbn [split].
  - repeat constructor.
  - destruct (Ascii.eqb c sep) eqn:Hc.
    + constructor; [reflexivity | assumption].
    + pose proof (split_not_nil sep rest) as Hnil.
      destruct (split sep rest) as [|seg segs]; [contradiction|].
      inversion IH as [|? ? Hseg Hsegs]; subst.
      constructor; [|assumption]. cbn [occurs]. rewrite Hc. exact Hseg.
Qed.

Lemma split_free (sep : ascii) (h : string) :
  occurs sep h = false -> split sep h = [h].
Proof.
  induction h as [|c h IH]; [reflexivity|]. cbn [occurs split].
  intros H. apply orb_false_iff in H as [Hc Hh].
  rewrite Hc, (IH Hh). reflexivity.
Qed.

Lemma append_nil_l (s : string) : EmptyString ++ s = s.
Proof. reflexivity. Qed.

Lemma append_cons (c : ascii) (a b : string) : String c a ++ b = String c (a ++ b).
Proof. reflexivity. Qed.

Lemma split_app (sep : ascii) (h rest : string) :
  occurs sep h = false ->
  split sep (h ++ String sep rest) = h :: split sep rest.
Proof.
  induction h as [|c h IH]; intros H.
  - rewrite append_nil_l. cbn [split]. rewrite Ascii.eqb_refl. reflexivity.
  - cbn [occurs] in H. apply orb_false_iff in H as [Hc Hh].
    rewrite append_cons. cbn [split]. rewrite Hc, (IH Hh). reflexivity.
Qed.

Lemma split_join (sep : ascii) (parts : list string) :
  parts <> [] ->
  Forall (fun seg => occurs sep seg = false) parts ->
  split sep (join (String sep EmptyString) parts) = parts.
Proof.
  induction parts as [|p rest IH]; [contradiction|]. intros _ Hfree.
  inversion Hfree as [|? ? Hp Hrest]; subst.
  destruct rest as [|q rest].
  - cbn. apply split_free. assumption.
  - rewrite join_cons by discriminate.
    change (p ++ String sep EmptyString ++ join (String sep EmptyString) (q :: rest))
      with (p ++ String sep (join (String sep EmptyString) (q :: rest))).
    rewrite split_app by assumption. rewrite IH; [reflexivity | discriminate | assumption].
Qed.

(** X1: [split] and [join] are inverse to each other: joining the segments
    of any string on the separator gives the string back, no segment
    contains the separator, and splitting the join of a non-empty list of
    separator-free segments gives the list back. *)
Theorem split_join_round_trip :
  forall (sep : ascii) (s : string) (parts : list string),
    join (String sep EmptyString) (split sep s) = s
    /\ Forall (fun seg => occurs sep seg = false) (split sep s)
    /\ (parts <> [] ->
        Forall (fun seg => occurs sep seg = false) parts ->
        split sep (join (String sep EmptyString) parts) = parts).
Proof.
  intros sep s parts. split; [apply join_split|].
  split; [apply split_segments_free | apply split_join].
Qed.

Lemma split_join_round_trip_witness :
  split "." (join "." ["e30"; "e30"; "S"]) = ["e30"; "e30"; "S"].
Proof.
  apply (split_join_round_trip "." EmptyString ["e30"; "e30"; "S"]).
  - discriminate.
  - repeat constructor.
Defined.

(** ** Decoding identity tokens *)

Lemma split_three (h p sg : string) :
  occurs "." h = false -> occurs "." p = false -> occurs "." sg = false ->
  split "." (h ++ "." ++ p ++ "." ++ sg) = [h; p; sg].
Proof.
  intros Hh Hp Hs.
  change (h ++ "." ++ p ++ "." ++ sg) with (h ++ String "." (p ++ String "." sg)).
  rewrite !split_app by assumption. rewrite split_free by assumption. reflexivity.
Qed.

Lemma decodeJwt_three (rt : Runtime) (h p sg : string) :
  occurs "." h = false -> occurs "." p = false -> occurs "." sg = false ->
  decodeJwt rt (h ++ "." ++ p ++ "." ++ sg) =
  if negb (str_truthy h) || negb (str_truthy p) || negb (str_truthy sg)
  then inl malformed_token
  else match JSON_parse_atob rt h with
       | inl e => inl e
       | inr decodedHeader =>
           match JSON_parse_atob rt p with
           | inl e => inl e
           | inr decodedPayload =>
               inr {| header := decodedHeader; payload := decodedPayload; signature := sg |}
           end
       end.
Proof.
  intros Hh Hp Hs. unfold decodeJwt. rewrite split_three by assumption. reflexivity.
Qed.

(** X2: a token made of three non-empty dot-free segments, of which the
    first two are base64 of JSON texts, decodes to the two parsed values and
    to the third segment, kept as it is. *)
Theorem decodeJwt_decodes_three_segments :
  forall (rt : Runtime) (h p sg headerText payloadText : string)
         (decodedHeader decodedPayload : json),
    occurs "." h = false -> occurs "." p = false -> occurs "." sg = false ->
    h <> EmptyString -> p <> EmptyString -> sg <> EmptyString ->
    atob rt h = Some headerText -> JSON_parse rt headerText = Some decodedHeader ->
    atob rt p = Some payloadText -> JSON_parse rt payloadText = Some decodedPayload ->
    decodeJwt rt (h ++ "." ++ p ++ "." ++ sg)
    = inr {| header := decodedHeader; payload := decodedPayload; signature := sg |}.
Proof.
  intros rt h p sg headerText payloadText decodedHeader decodedPayload
         Hh Hp Hs Nh Np Ns Ah Jh Ap Jp.
  apply str_truthy_iff in Nh, Np, Ns.
  rewrite decodeJwt_three by assumption. rewrite Nh, Np, Ns. cbn [negb orb].
  unfold JSON_parse_atob. rewrite Ah, Jh, Ap, Jp. reflexivity.
Qed.

Lemma decodeJwt_decodes_three_segments_witness :
  decodeJwt Sample.rt_granted ("e30" ++ "." ++ "eyJub25jZSI6Im4yIn0" ++ "." ++ "S")
  = inr {| header := JObj []; payload := JObj [("nonce", JStr "n2")]; signature := "S" |}.
Proof.
  apply (decodeJwt_decodes_three_segments Sample.rt_granted
           "e30" "eyJub25jZSI6Im4yIn0" "S" "{}" Sample.nonce_n2);
    try reflexivity; discriminate.
Defined.

(** X3: the decoder does not look at the signature: two tokens that differ
    only in their (non-empty, dot-free) third segment have the same nonce,
    and fail or succeed alike. *)
Theorem getNonce_ignores_signature :
  forall (rt : Runtime) (h p sg sg' : string),
    occurs "." h = false -> occurs "." p = false ->
    occurs "." sg = false -> occurs "." sg' = false ->
    sg <> EmptyString -> sg' <> EmptyString ->
    getNonce rt (h ++ "." ++ p ++ "." ++ sg) = getNonce rt (h ++ "." ++ p ++ "." ++ sg').
Proof.
  intros rt h p sg sg' Hh Hp Hs Hs' Ns Ns'. apply str_truthy_iff in Ns, Ns'.
  unfold getNonce. rewrite !decodeJwt_three by assumption. rewrite Ns, Ns'.
  destruct (negb (str_truthy h) || negb (str_truthy p) || negb true); [reflexivity|].
  destruct (JSON_parse_atob rt h); [reflexivity|].
  destruct (JSON_parse_atob rt p); reflexivity.
Qed.

Lemma getNonce_ignores_signature_witness :
  getNonce Sample.rt_granted ("e30" ++ "." ++ "eyJub25jZSI6Im4yIn0" ++ "." ++ "S")
  = getNonce Sample.rt_granted ("e30" ++ "." ++ "eyJub25jZSI6Im4yIn0" ++ "." ++ "forged").
Proof.
  apply (getNonce_ignores_signature Sample.rt_granted
           "e30" "eyJub25jZSI6Im4yIn0" "S" "forged");
    try reflexivity; discriminate.
Defined.

(** X4: [getNonce] fails in four ways only: with the malformed-token error,
    on a segment that is not base64, on a segment that is not JSON, or on a
    payload that is [null]. *)
Theorem getNonce_failures :
  forall (rt : Runtime) (idToken : string) (e : exn),
    getNonce rt idToken = inl e ->
    e = malformed_token \/ e = InvalidCharacterError \/ e = SyntaxError
    \/ e = TypeError "Cannot read properties of null".
Proof.
  intros rt idToken e. unfold getNonce, decodeJwt.
  destruct (negb _ || negb _ || negb _).
  { intros H. injection H as <-. auto. }
  destruct (nth_error _ 0) as [h|]; [|intros H; injection H as <-; auto].
  destruct (nth_error _ 1) as [p|]; [|intros H; injection H as <-; auto].
  destruct (nth_error _ 2) as [sg|]; [|intros H; injection H as <-; auto].
  assert (Hseg : forall seg e', JSON_parse_atob rt seg = inl e' ->
                                e' = InvalidCharacterError \/ e' = SyntaxError).
  { intros seg e'. unfold JSON_parse_atob.
    destruct (atob rt seg) as [text|]; [|intros H; injection H as <-; auto].
    destruct (JSON_parse rt text); [discriminate|intros H; injection H as <-; auto]. }
  destruct (JSON_parse_atob rt h) as [eh|dh] eqn:Eh.
  { intros H. injection H as <-. destruct (Hseg _ _ Eh); auto. }
  destruct (JSON_parse_atob rt p) as [ep|dp] eqn:Ep.
  { intros H. injection H as <-. destruct (Hseg _ _ Ep); auto. }
  cbn [payload]. destruct dp; cbn; try discriminate.
  intros H. injection H as <-. auto.
Qed.

Lemma getNonce_failures_witness :
  malformed_token = malformed_token \/ malformed_token = InvalidCharacterError
  \/ malformed_token = SyntaxError
  \/ malformed_token = TypeError "Cannot read properties of null".
Proof.
  apply (getNonce_failures Sample.rt_granted "e30.e30"). reflexivity.
Defined.

(** ** The shape of PKCE values *)

Lemma base64url_digit_in_alphabet (i : Z) :
  0 <= i < 64 -> occurs (base64url_digit i) base64url_alphabet = true.
Proof.
  intros Hi.
  replace i with (Z.of_nat (Z.to_nat i)) by lia.
  assert (Hn : (Z.to_nat i < 64)%nat) by lia.
  generalize dependent (Z.to_nat i). intros n Hn.
  do 64 (destruct n as [|n]; [reflexivity|]). lia.
Qed.

Lemma base64url_value_digit (i : Z) :
  0 <= i < 64 -> base64url_value (base64url_digit i) = i.
Proof.
  intros Hi.
  replace i with (Z.of_nat (Z.to_nat i)) by lia.
  assert (Hn : (Z.to_nat i < 64)%nat) by lia.
  generalize dependent (Z.to_nat i). intros n Hn.
  do 64 (destruct n as [|n]; [reflexivity|]). lia.
Qed.

Lemma sextets_in_range (a b : Z) :
  0 <= a < 256 -> 0 <= b < 256 ->
  0 <= a / 4 < 64 /\ 0 <= a mod 64 < 64
  /\ 0 <= (a mod 4) * 16 < 64 /\ 0 <= (a mod 16) * 4 < 64
  /\ 0 <= (a mod 4) * 16 + b / 16 < 64 /\ 0 <= (a mod 16) * 4 + b / 64 < 64.
Proof.
  intros Ha Hb. repeat split; Z.div_mod_to_equations; lia.
Qed.

Lemma four_thirds_step (n : nat) :
  ((4 * S (S (S n)) + 2) / 3 = 4 + (4 * n + 2) / 3)%nat.
Proof.
  replace (4 * S (S (S n)) + 2)%nat with (4 * 3 + (4 * n + 2))%nat by lia.
  apply Nat.div_add_l. discriminate.
Qed.

Lemma base64url_nopad_shape (bytes : list byte) :
  drawn_from base64url_alphabet (base64url_nopad bytes) = true
  /\ String.length (base64url_nopad bytes) = ((4 * List.length bytes + 2) / 3)%nat.
Proof.
  induction bytes as [|x|x y|x y z rest [IHa IHl]] using list_ind3.
  - split; reflexivity.
  - pose proof (byte_val_range x) as Hx.
    destruct (sextets_in_range _ _ Hx Hx) as (H1 & _ & H2 & _).
    cbn [base64url_nopad drawn_from String.length List.length].
    rewrite !base64url_digit_in_alphabet by assumption. split; reflexivity.
  - pose proof (byte_val_range x) as Hx. pose proof (byte_val_range y) as Hy.
    destruct (sextets_in_range _ _ Hx Hy) as (H1 & _ & _ & _ & H2 & _).
    destruct (sextets_in_range _ _ Hy Hy) as (_ & _ & _ & H3 & _).
    cbn [base64url_nopad drawn_from String.length List.length].
    rewrite !base64url_digit_in_alphabet by assumption. split; reflexivity.
  - pose proof (byte_val_range x) as Hx. pose proof (byte_val_range y) as Hy.
    pose proof (byte_val_range z) as Hz.
    destruct (sextets_in_range _ _ Hx Hy) as (H1 & _ & _ & _ & H2 & _).
    destruct (sextets_in_range _ _ Hy Hz) as (_ & _ & _ & _ & _ & H3).
    destruct (sextets_in_range _ _ Hz Hz) as (_ & H4 & _).
    cbn [base64url_nopad drawn_from String.length List.length].
    rewrite !base64url_digit_in_alphabet by assumption. rewrite IHa, IHl.
    split; [reflexivity|]. rewrite four_thirds_step. reflexivity.
Qed.

Lemma binary_string_bytes (s : string) :
  string_of_list_byte (list_byte_of_string s) = s
  /\ List.length (list_byte_of_string s) = String.length s.
Proof.
  split; [apply string_of_list_byte_of_string|].
  induction s as [|c s IH]; [reflexivity|]. cbn. f_equal. exact IH.
Qed.

Lemma base64UrlEncode_of_string (str : string) :
  base64UrlEncode str = base64url_nopad (list_byte_of_string str).
Proof.
  destruct (binary_string_bytes str) as [Hs _].
  rewrite <- base64UrlEncode_bytes, Hs. reflexivity.
Qed.

(** X5: whatever binary string it is given, [base64UrlEncode] returns a text
    drawn from the URL-safe alphabet (so without [+], [/] or [=]) that has
    a third more characters than the input, rounded up. *)
Theorem base64UrlEncode_shape :
  forall (str : string),
    drawn_from base64url_alphabet (base64UrlEncode str) = true
    /\ String.length (base64UrlEncode str) = ((4 * String.length str + 2) / 3)%nat.
Proof.
  intros str. destruct (binary_string_bytes str) as [_ Hl].
  rewrite base64UrlEncode_of_string, <- Hl. apply base64url_nopad_shape.
Qed.

Lemma byte_val_inj (x y : byte) : byte_val x = byte_val y -> x = y.
Proof.
  unfold byte_val. intros H. apply N2Z.inj in H.
  pose proof (Byte.of_to_N x) as Hx. pose proof (Byte.of_to_N y) as Hy.
  rewrite H in Hx. congruence.
Qed.

Lemma map_byte_val_inj (l1 l2 : list byte) :
  List.map byte_val l1 = List.map byte_val l2 -> l1 = l2.
Proof.
  revert l2. induction l1 as [|x l1 IH]; intros [|y l2] H; try discriminate; [reflexivity|].
  cbn in H. injection H as Hxy Hrest. f_equal; [apply byte_val_inj | apply IH]; assumption.
Qed.

Lemma sextets_rebuild (a b c : Z) :
  0 <= a < 256 -> 0 <= b < 256 -> 0 <= c < 256 ->
  (a / 4) * 4 + ((a mod 4) * 16 + b / 16) / 16 = a
  /\ (((a mod 4) * 16 + b / 16) mod 16) * 16 + ((b mod 16) * 4 + c / 64) / 4 = b
  /\ (((b mod 16) * 4 + c / 64) mod 4) * 64 + c mod 64 = c
  /\ (a / 4) * 4 + ((a mod 4) * 16) / 16 = a
  /\ (((a mod 4) * 16 + b / 16) mod 16) * 16 + ((b mod 16) * 4) / 4 = b.
Proof.
  intros Ha Hb Hc. repeat split; Z.div_mod_to_equations; lia.
Qed.

Lemma base64url_read_nopad (bytes : list byte) :
  base64url_read (base64url_nopad bytes) = List.map byte_val bytes.
Proof.
  induction bytes as [|x|x y|x y z rest IH] using list_ind3.
  - reflexivity.
  - pose proof (byte_val_range x) as Hx.
    destruct (sextets_in_range _ _ Hx Hx) as (H1 & _ & H2 & _).
    destruct (sextets_rebuild _ _ _ Hx Hx Hx) as (_ & _ & _ & E & _).
    cbn [base64url_nopad base64url_read List.map].
    rewrite !base64url_value_digit by assumption. rewrite E. reflexivity.
  - pose proof (byte_val_range x) as Hx. pose proof (byte_val_range y) as Hy.
    destruct (sextets_in_range _ _ Hx Hy) as (H1 & _ & _ & _ & H2 & _).
    destruct (sextets_in_range _ _ Hy Hy) as (_ & _ & _ & H3 & _).
    destruct (sextets_rebuild _ _ _ Hx Hy Hy) as (E1 & _ & _ & _ & E2).
    cbn [base64url_nopad base64url_read List.map].
    rewrite !base64url_value_digit by assumption. rewrite E1, E2. reflexivity.
  - pose proof (byte_val_range x) as Hx. pose proof (byte_val_range y) as Hy.
    pose proof (byte_val_range z) as Hz.
    destruct (sextets_in_range _ _ Hx Hy) as (H1 & _ & _ & _ & H2 & _).
    destruct (sextets_in_range _ _ Hy Hz) as (_ & _ & _ & _ & _ & H3).
    destruct (sextets_in_range _ _ Hz Hz) as (_ & H4 & _).
    destruct (sextets_rebuild _ _ _ Hx Hy Hz) as (E1 & E2 & E3 & _).
    cbn [base64url_nopad base64url_read List.map].
    rewrite !base64url_value_digit by assumption. rewrite E1, E2, E3, IH. reflexivity.
Qed.

(** X6: [base64UrlEncode] loses nothing: two binary strings with the same
    encoding are the same string.  In particular a code challenge determines
    the digest it was computed from. *)
Theorem base64UrlEncode_injective :
  forall (str str' : string),
    base64UrlEncode str = base64UrlEncode str' -> str = str'.
Proof.
  intros str str' H.
  destruct (binary_string_bytes str) as [Hs _].
  destruct (binary_string_bytes str') as [Hs' _].
  rewrite <- Hs, <- Hs' in H. rewrite !base64UrlEncode_bytes in H.
  apply (f_equal base64url_read) in H. rewrite !base64url_read_nopad in H.
  apply map_byte_val_inj in H. rewrite <- Hs, <- Hs', H. reflexivity.
Qed.

Lemma base64UrlEncode_injective_witness :
  "fo" = "fo".
Proof.
  apply (base64UrlEncode_injective "fo" "fo"). reflexivity.
Defined.

Lemma codeChallenge_value
      (rt : Runtime) (verifier : string) (w : World) :
  generateCodeChallenge rt verifier w
  = (inr (base64url_nopad (SHA256 rt (TextEncoder_encode rt verifier))), w).
Proof.
  unfold generateCodeChallenge, convertBufferToString, ret.
  rewrite base64UrlEncode_bytes. reflexivity.
Qed.

Lemma generateRandomCode_bytes (ent : Entropy) :
  list_byte_of_string (generateRandomCode ent) = List.map (getRandomValues ent) (seq 0 32).
Proof. unfold generateRandomCode. apply list_byte_of_string_of_list_byte. Qed.


(** X7: the code verifier is always a text of 43 characters of the URL-safe
    alphabet, and producing it touches neither the session, the clock nor
    the network. *)
Theorem generateCodeVerifier_shape :
  forall (ent : Entropy) (w : World),
    exists verifier,
      generateCodeVerifier ent w = (inr verifier, w)
      /\ String.length verifier = 43%nat
      /\ drawn_from base64url_alphabet verifier = true.
Proof.
  intros ent w. exists (base64UrlEncode (generateRandomCode ent)).
  split; [reflexivity|].
  rewrite base64UrlEncode_of_string, generateRandomCode_bytes.
  destruct (base64url_nopad_shape (List.map (getRandomValues ent) (seq 0 32))) as [Ha Hl].
  split; [|exact Ha]. rewrite Hl, length_map, length_seq. reflexivity.
Qed.

(** X8: when the digest has 32 bytes, the code challenge is a text of 43
    characters of the URL-safe alphabet; and two verifiers with the same
    challenge have the same digest. *)
Theorem generateCodeChallenge_shape :
  forall (rt : Runtime) (verifier verifier' : string) (w : World),
    (List.length (SHA256 rt (TextEncoder_encode rt verifier)) = 32%nat ->
     exists challenge,
       generateCodeChallenge rt verifier w = (inr challenge, w)
       /\ String.length challenge = 43%nat
       /\ drawn_from base64url_alphabet challenge = true)
    /\ (fst (generateCodeChallenge rt verifier w) = fst (generateCodeChallenge rt verifier' w) ->
        SHA256 rt (TextEncoder_encode rt verifier)
        = SHA256 rt (TextEncoder_encode rt verifier')).
Proof.
  intros rt verifier verifier' w. split.
  - intros Hlen. rewrite codeChallenge_value.
    destruct (base64url_nopad_shape (SHA256 rt (TextEncoder_encode rt verifier))) as [Ha Hl].
    eexists. split; [reflexivity|]. split; [|exact Ha]. rewrite Hl, Hlen. reflexivity.
  - rewrite !codeChallenge_value. cbn [fst]. intros H.
    injection H as H. apply (f_equal base64url_read) in H.
    rewrite !base64url_read_nopad in H. apply map_byte_val_inj in H. exact H.
Qed.

Lemma generateCodeChallenge_shape_witness :
  exists challenge,
    generateCodeChallenge Sample.rt_granted Scene.verifier Sample.pending
    = (inr challenge, Sample.pending)
    /\ String.length challenge = 43%nat
    /\ drawn_from base64url_alphabet challenge = true.
Proof.
  apply (proj1 (generateCodeChallenge_shape Sample.rt_granted Scene.verifier Scene.verifier
                  Sample.pending)).
  reflexivity.
Defined.

(** ** Nonce generation *)

Lemma drawn_from_app (alphabet a b : string) :
  drawn_from alphabet (a ++ b) = drawn_from alphabet a && drawn_from alphabet b.
Proof.
  induction a as [|c a IH]; [reflexivity|].
  rewrite append_cons. cbn [drawn_from]. rewrite IH. apply andb_assoc.
Qed.

Lemma length_app_string (a b : string) :
  String.length (a ++ b) = (String.length a + String.length b)%nat.
Proof.
  induction a as [|c a IH]; [reflexivity|].
  rewrite append_cons. cbn [String.length]. rewrite IH. reflexivity.
Qed.

Lemma get_occurs (n : nat) (s : string) (c : ascii) :
  String.get n s = Some c -> occurs c s = true.
Proof.
  revert n. induction s as [|x s IH]; intros n; [discriminate|].
  destruct n as [|n]; cbn [String.get occurs].
  - intros H. injection H as ->. rewrite Ascii.eqb_refl. reflexivity.
  - intros H. rewrite (IH n H). apply orb_true_r.
Qed.

Lemma get_in_range (n : nat) (s : string) :
  (n < String.length s)%nat -> exists c, String.get n s = Some c.
Proof.
  revert n. induction s as [|x s IH]; intros n Hn; cbn in Hn; [lia|].
  destruct n as [|n]; [exists x; reflexivity|]. apply IH. lia.
Qed.

Lemma charAt_drawn (i : Z) (s : string) : drawn_from s (charAt i s) = true.
Proof.
  unfold charAt. destruct (i <? 0)%Z; [reflexivity|].
  destruct (String.get (Z.to_nat i) s) as [c|] eqn:E; [|reflexivity].
  cbn [drawn_from]. rewrite (get_occurs _ _ _ E). reflexivity.
Qed.

Lemma charAt_length (i : Z) (s : string) :
  (String.length (charAt i s) <= 1)%nat
  /\ (0 <= i < Z.of_nat (String.length s) -> String.length (charAt i s) = 1%nat).
Proof.
  unfold charAt. split.
  - destruct (i <? 0)%Z; [cbn; lia|].
    destruct (String.get (Z.to_nat i) s); cbn; lia.
  - intros Hi. destruct (Z.ltb_spec i 0); [lia|].
    destruct (get_in_range (Z.to_nat i) s) as [c ->]; [lia | reflexivity].
Qed.

Lemma generateNonce_from_shape (ent : Entropy) (n i : nat) (acc : string) :
  drawn_from nonce_characters acc = true ->
  drawn_from nonce_characters (generateNonce_from ent i n acc) = true
  /\ (String.length (generateNonce_from ent i n acc) <= String.length acc + n)%nat
  /\ ((forall k, (i <= k < i + n)%nat -> 0 <= Math_random_index ent k < 62) ->
      String.length (generateNonce_from ent i n acc) = (String.length acc + n)%nat).
Proof.
  revert i acc. induction n as [|n IH]; intros i acc Hacc.
  - cbn [generateNonce_from]. repeat split; [assumption | lia | intros _; lia].
  - cbn [generateNonce_from].
    set (acc' := acc ++ charAt (Math_random_index ent i) nonce_characters).
    assert (Hacc' : drawn_from nonce_characters acc' = true).
    { unfold acc'. rewrite drawn_from_app, Hacc, charAt_drawn. reflexivity. }
    destruct (charAt_length (Math_random_index ent i) nonce_characters) as [Hle Heq].
    assert (Hlen : String.length acc'
                   = (String.length acc
                      + String.length (charAt (Math_random_index ent i) nonce_characters))%nat)
      by apply length_app_string.
    destruct (IH (S i) acc' Hacc') as (Ha & Hb & Hc).
    split; [exact Ha|]. split; [lia|].
    intros Hrange. rewrite Hc by (intros k Hk; apply Hrange; lia).
    rewrite Hlen, Heq; [lia|]. apply (Hrange i). lia.
Qed.

(** X9: a nonce is made of characters of the alphanumeric alphabet only and
    is never longer than asked; when every random index falls inside the
    alphabet, as it does for [Math.random() < 1], it has exactly the length
    asked; and generating it touches nothing. *)
Theorem generateNonce_shape :
  forall (ent : Entropy) (length : Z) (w : World),
    exists nonce,
      generateNonce ent length w = (inr nonce, w)
      /\ drawn_from nonce_characters nonce = true
      /\ (String.length nonce <= Z.to_nat length)%nat
      /\ ((forall k, (k < Z.to_nat length)%nat -> 0 <= Math_random_index ent k < 62) ->
          String.length nonce = Z.to_nat length).
Proof.
  intros ent length w. eexists. split; [reflexivity|].
  destruct (generateNonce_from_shape ent (Z.to_nat length) 0 EmptyString eq_refl)
    as (Ha & Hb & Hc).
  split; [exact Ha|]. split; [exact Hb|].
  intros Hrange. apply Hc. intros k Hk. apply Hrange. lia.
Qed.

Lemma generateNonce_shape_witness :
  (forall k, (k < Z.to_nat 16)%nat -> 0 <= Math_random_index Scene.entropy k < 62)
  /\ String.length (generateNonce_from Scene.entropy 0 (Z.to_nat 16) EmptyString) = 16%nat.
Proof.
  assert (Hrange : forall k, (k < Z.to_nat 16)%nat ->
                             0 <= Math_random_index Scene.entropy k < 62).
  { intros k Hk. cbn [Math_random_index Scene.entropy].
    pose proof (Nat.mod_upper_bound (11 * k + 5) 62). lia. }
  split; [exact Hrange|].
  destruct (generateNonce_shape Scene.entropy 16 Sample.pending)
    as (nonce & E & _ & _ & Hlen).
  injection E as <-. apply Hlen. exact Hrange.
Defined.

(** ** The network operations *)

Lemma fetch_calls (rt : Runtime) (req : FetchRequest) (w : World) :
  calls (snd (fetch rt req w)) = List.app (calls w) [req].
Proof. unfold fetch. destruct (network rt _ req); reflexivity. Qed.

Ltac one_fetch rt w :=
  unfold bind;
  match goal with
  | |- context [fetch rt ?req w] =>
      pose proof (fetch_calls rt req w) as Hcalls;
      destruct (fetch rt req w) as [[e|response] w1]; cbn [snd] in Hcalls;
      [exact Hcalls|];
      destruct (negb (ok response)); [exact Hcalls|];
      rewrite response_json_world; exact Hcalls
  end.

Lemma discoverAPIEndpoints_same_session
      (rt : Runtime) (decode : string -> option CustomerAccountAPIConfig)
      (shopDomain : string) (w : World) :
  same_session w (snd (discoverAPIEndpoints rt decode shopDomain w)).
Proof. unfold discoverAPIEndpoints. fetch_then_decode rt w. Qed.

(** X10: each of the four network operations sends exactly one request,
    whatever comes back (there is no retry): discovery a GET of the
    well-known path of the shop domain, the two token operations a POST of
    their form to the token endpoint given; and none of them touches the
    session data or reads the clock. *)
Theorem network_operations_send_one_request :
  forall (rt : Runtime) (decode : string -> option CustomerAccountAPIConfig)
         (shopDomain : string) (exchange : TokenRequestParams)
         (refresh : RefreshTokenParams) (w : World),
    (calls (snd (discoverAuthEndpoints rt shopDomain w))
     = List.app (calls w) [{| fr_url := "https://" ++ shopDomain ++ "/.well-known/openid-configuration";
                      fr_method := "GET";
                      fr_headers := [("User-Agent", user_agent); ("Accept", "application/json")];
                      fr_body := [] |}]
     /\ same_session w (snd (discoverAuthEndpoints rt shopDomain w)))
    /\ (calls (snd (discoverAPIEndpoints rt decode shopDomain w))
        = List.app (calls w) [{| fr_url := "https://" ++ shopDomain ++ "/.well-known/customer-account-api";
                         fr_method := "GET";
                         fr_headers := [("User-Agent", user_agent); ("Accept", "application/json")];
                         fr_body := [] |}]
        /\ same_session w (snd (discoverAPIEndpoints rt decode shopDomain w)))
    /\ (calls (snd (exchangeCodeForToken rt exchange w))
        = List.app (calls w) [{| fr_url := tokenEndpoint exchange;
                         fr_method := "POST";
                         fr_headers := form_headers;
                         fr_body := [("grant_type", "authorization_code");
                                     ("client_id", clientId exchange);
                                     ("redirect_uri", redirectUri exchange);
                                     ("code", code exchange);
                                     ("code_verifier", value_toString (codeVerifier exchange))] |}]
        /\ same_session w (snd (exchangeCodeForToken rt exchange w)))
    /\ (calls (snd (refreshAccessToken rt refresh w))
        = List.app (calls w) [{| fr_url := rp_tokenEndpoint refresh;
                         fr_method := "POST";
                         fr_headers := form_headers;
                         fr_body := [("grant_type", "refresh_token");
                                     ("client_id", rp_clientId refresh);
                                     ("refresh_token", value_toString (rp_refreshToken refresh))] |}]
        /\ same_session w (snd (refreshAccessToken rt refresh w))).
Proof.
  intros rt decode shopDomain exchange refresh w.
  split; [split|split; [split|split; split]].
  - unfold discoverAuthEndpoints. one_fetch rt w.
  - apply discoverAuthEndpoints_same_session.
  - unfold discoverAPIEndpoints. one_fetch rt w.
  - apply discoverAPIEndpoints_same_session.
  - unfold exchangeCodeForToken. one_fetch rt w.
  - apply exchangeCodeForToken_same_session.
  - unfold refreshAccessToken. one_fetch rt w.
  - apply refreshAccessToken_same_session.
Qed.

Lemma fetch_resolved (rt : Runtime) (req : FetchRequest) (w : World) (response : Response) :
  network rt (List.length (calls w)) req = Resolved response ->
  fetch rt req w
  = (inr response, {| session := session w; ticks := ticks w; calls := List.app (calls w) [req] |}).
Proof. intros H. unfold fetch. rewrite H. reflexivity. Qed.

(** X11: when the provider answers a request with a non-success status, the
    operation that sent it throws an error and never decodes the body; the
    error names the operation, so that the failures of the four operations
    are told apart whatever the status and the body are. *)
Theorem network_failures_are_told_apart :
  forall (rt : Runtime) (decode : string -> option CustomerAccountAPIConfig)
         (shopDomain : string) (exchange : TokenRequestParams)
         (refresh : RefreshTokenParams) (w : World) (response : Response),
    (forall req, network rt (List.length (calls w)) req = Resolved response) ->
    ok response = false ->
    exists auth api exchanged refreshed,
      fst (discoverAuthEndpoints rt shopDomain w) = inl (Error auth)
      /\ fst (discoverAPIEndpoints rt decode shopDomain w) = inl (Error api)
      /\ fst (exchangeCodeForToken rt exchange w) = inl (Error exchanged)
      /\ fst (refreshAccessToken rt refresh w) = inl (Error refreshed)
      /\ auth <> api /\ auth <> exchanged /\ auth <> refreshed
      /\ api <> exchanged /\ api <> refreshed /\ exchanged <> refreshed.
Proof.
  intros rt decode shopDomain exchange refresh w response Hnet Hok.
  unfold discoverAuthEndpoints, discoverAPIEndpoints, exchangeCodeForToken,
    refreshAccessToken, bind.
  rewrite !(fetch_resolved rt _ w response) by apply Hnet.
  rewrite Hok. cbn [negb fst throw].
  do 4 eexists. repeat split;
    lazy beta iota delta [String.append]; congruence.
Qed.

Lemma network_failures_are_told_apart_witness :
  exists auth api exchanged refreshed,
    fst (discoverAuthEndpoints Scene.rt_down "shop.example.com" Sample.expired)
    = inl (Error auth)
    /\ fst (discoverAPIEndpoints Scene.rt_down Scene.json_api_config
              "shop.example.com" Sample.expired) = inl (Error api)
    /\ fst (exchangeCodeForToken Scene.rt_down Scene.exchange_params Sample.expired)
       = inl (Error exchanged)
    /\ fst (refreshAccessToken Scene.rt_down Scene.refresh_params Sample.expired)
       = inl (Error refreshed)
    /\ auth <> api /\ auth <> exchanged /\ auth <> refreshed
    /\ api <> exchanged /\ api <> refreshed /\ exchanged <> refreshed.
Proof.
  apply (network_failures_are_told_apart Scene.rt_down Scene.json_api_config
           "shop.example.com" Scene.exchange_params Scene.refresh_params
           Sample.expired Scene.unavailable).
  - intros req. reflexivity.
  - reflexivity.
Defined.

(** ** Building the authorization URL and starting a login *)

Lemma buildAuthorizationUrl_query (rt : Runtime) (params : AuthorizationRequestParams) :
  URL_canParse rt (authorizationEndpoint params) = true ->
  exists url,
    buildAuthorizationUrl rt params = inr url
    /\ href url = authorizationEndpoint params
    /\ assoc "scope" (appended url) = Some "openid email customer-account-api:full"
    /\ assoc "client_id" (appended url) = Some (ap_clientId params)
    /\ assoc "response_type" (appended url) = Some "code"
    /\ assoc "redirect_uri" (appended url) = Some (ap_redirectUri params)
    /\ assoc "state" (appended url) = Some (ap_state params)
    /\ assoc "code_challenge" (appended url) = Some (codeChallenge params)
    /\ assoc "code_challenge_method" (appended url) = Some "S256"
    /\ assoc "nonce" (appended url)
       = (if truthy_str (ap_nonce params) then ap_nonce params else None)
    /\ assoc "locale" (appended url)
       = (if truthy_str (locale params) then locale params else None)
    /\ assoc "prompt" (appended url)
       = (if truthy_str (prompt params) then prompt params else None)
    /\ assoc "code_verifier" (appended url) = None.
Proof.
  intros Hparse. unfold buildAuthorizationUrl, new_URL. rewrite Hparse.
  eexists. split; [reflexivity|].
  destruct params as [endpoint client uri state nonce challenge loc pr].
  cbn [authorizationEndpoint ap_clientId ap_redirectUri ap_state ap_nonce codeChallenge
       locale prompt].
  destruct nonce as [[|? ?]|], loc as [[|? ?]|], pr as [[|? ?]|];
    cbn [truthy_str str_truthy the from_option id searchParams_append appended href
         List.app assoc String.eqb Ascii.eqb Bool.eqb];
    repeat split; reflexivity.
Qed.

(** X12: [buildAuthorizationUrl] fails exactly when the endpoint is not a
    URL; otherwise the URL it returns is the endpoint with, appended to its
    query, the fixed scope, [response_type=code] and
    [code_challenge_method=S256], the client id, redirect URI, state and
    challenge it was given, and [nonce], [locale] and [prompt] exactly when
    they are given and not empty.  No [code_verifier] is ever put in it. *)
Theorem buildAuthorizationUrl_parameters :
  forall (rt : Runtime) (params : AuthorizationRequestParams),
    (URL_canParse rt (authorizationEndpoint params) = false ->
     buildAuthorizationUrl rt params = inl (TypeError "Invalid URL"))
    /\ (URL_canParse rt (authorizationEndpoint params) = true ->
        exists url,
          buildAuthorizationUrl rt params = inr url
          /\ href url = authorizationEndpoint params
          /\ assoc "scope" (appended url) = Some "openid email customer-account-api:full"
          /\ assoc "client_id" (appended url) = Some (ap_clientId params)
          /\ assoc "response_type" (appended url) = Some "code"
          /\ assoc "redirect_uri" (appended url) = Some (ap_redirectUri params)
          /\ assoc "state" (appended url) = Some (ap_state params)
          /\ assoc "code_challenge" (appended url) = Some (codeChallenge params)
          /\ assoc "code_challenge_method" (appended url) = Some "S256"
          /\ assoc "nonce" (appended url)
             = (if truthy_str (ap_nonce params) then ap_nonce params else None)
          /\ assoc "locale" (appended url)
             = (if truthy_str (locale params) then locale params else None)
          /\ assoc "prompt" (appended url)
             = (if truthy_str (prompt params) then prompt params else None)
          /\ assoc "code_verifier" (appended url) = None).
Proof.
  intros rt params. split; intros Hparse.
  - unfold buildAuthorizationUrl, new_URL. rewrite Hparse. reflexivity.
  - apply buildAuthorizationUrl_query. exact Hparse.
Qed.

Lemma buildAuthorizationUrl_parameters_witness :
  buildAuthorizationUrl Sample.rt_granted
    {| authorizationEndpoint := "not a url"; ap_clientId := "client-1";
       ap_redirectUri := "https://store.example.com/account/authorize/callback";
       ap_state := "s1"; ap_nonce := Some "n1"; codeChallenge := "c";
       locale := None; prompt := None |}
  = inl (TypeError "Invalid URL").
Proof.
  apply (buildAuthorizationUrl_parameters Sample.rt_granted
           {| authorizationEndpoint := "not a url"; ap_clientId := "client-1";
              ap_redirectUri := "https://store.example.com/account/authorize/callback";
              ap_state := "s1"; ap_nonce := Some "n1"; codeChallenge := "c";
              locale := None; prompt := None |}).
  reflexivity.
Defined.



(** X14: when part of its configuration is missing, the login-initiation
    route throws before it generates anything: the session, the clock and
    the network log are as they were. *)
Theorem authorize_loader_requires_configuration :
  forall (rt : Runtime) (ent : Entropy) (request : Request) (env : Env) (w : World),
    config_missing env = true \/ truthy_str (shop_id_of env) = false ->
    exists message, authorize_loader rt ent request env w = (inl (Error message), w).
Proof.
  intros rt ent request env w Hmissing. unfold authorize_loader.
  destruct (truthy_str (PUBLIC_STORE_DOMAIN env)) eqn:Hdomain; cbn [negb];
    [|eexists; reflexivity].
  destruct (truthy_str (or_str _ _)) eqn:Hclient; cbn [negb]; [|eexists; reflexivity].
  destruct (truthy_str (shop_id_of env)) eqn:Hshop; cbn [negb]; [|eexists; reflexivity].
  exfalso. destruct Hmissing as [H|H]; [|discriminate].
  unfold config_missing in H. rewrite Hdomain, Hclient in H. discriminate.
Qed.

Lemma authorize_loader_requires_configuration_witness :
  exists message,
    authorize_loader Sample.rt_granted Scene.entropy (Sample.request [])
      {| PUBLIC_STORE_DOMAIN := Some "shop.example.com";
         PUBLIC_CUSTOMER_ACCOUNT_API_CLIENT_ID := None;
         CUSTOMER_ACCOUNT_CLIENT_ID := Some "client-1";
         SHOP_ID := None;
         PUBLIC_CUSTOMER_ACCOUNT_API_URL := Some "https://shopify.com/account" |}
      Sample.anonymous
    = (inl (Error message), Sample.anonymous).
Proof.
  apply (authorize_loader_requires_configuration Sample.rt_granted Scene.entropy).
  right. reflexivity.
Defined.

(** ** Finding the shop identifier *)

Lemma take_drop_while {A} (f : A -> bool) (l : list A) :
  l = (take_while f l ++ drop_while f l)%list.
Proof.
  induction l as [|x l IH]; [reflexivity|]. cbn.
  destruct (f x); [cbn; f_equal; exact IH | reflexivity].
Qed.

Lemma take_while_all {A} (f : A -> bool) (l : list A) :
  Forall (fun x => f x = true) (take_while f l).
Proof.
  induction l as [|x l IH]; cbn; [constructor|].
  destruct (f x) eqn:E; constructor; assumption.
Qed.

Lemma take_drop_while_app {A} (f : A -> bool) (l rest : list A) (x : A) :
  Forall (fun y => f y = true) l -> f x = false ->
  take_while f (l ++ x :: rest)%list = l /\ drop_while f (l ++ x :: rest)%list = x :: rest.
Proof.
  intros Hl Hx. induction Hl as [|y l Hy Hl IH]; cbn.
  - rewrite Hx. split; reflexivity.
  - rewrite Hy. destruct IH as [-> ->]. split; reflexivity.
Qed.

Lemma string_of_list_ascii_app (a b : list ascii) :
  string_of_list_ascii (a ++ b)%list = string_of_list_ascii a ++ string_of_list_ascii b.
Proof.
  induction a as [|c a IH]; [reflexivity|].
  cbn [List.app string_of_list_ascii]. rewrite append_cons, IH. reflexivity.
Qed.

Lemma list_ascii_of_string_app (a b : string) :
  list_ascii_of_string (a ++ b) = (list_ascii_of_string a ++ list_ascii_of_string b)%list.
Proof.
  induction a as [|c a IH]; [reflexivity|].
  rewrite append_cons. cbn [list_ascii_of_string List.app]. rewrite IH. reflexivity.
Qed.

Lemma match_trailing_digits_sound (s d : string) :
  match_trailing_digits s = Some d ->
  d <> EmptyString /\ all_digits d /\ exists before, s = before ++ "/" ++ d.
Proof.
  unfold match_trailing_digits, all_digits.
  set (backwards := rev (list_ascii_of_string s)).
  pose proof (take_drop_while is_digit backwards) as Hsplit.
  pose proof (take_while_all is_digit backwards) as Hall.
  destruct (take_while is_digit backwards) as [|c digits] eqn:Et; [discriminate|].
  destruct (drop_while is_digit backwards) as [|x rest] eqn:Ed; [discriminate|].
  destruct (Ascii.eqb_spec x "/") as [->|Hne].
  2:{ destruct x as [[] [] [] [] [] [] [] []];
        try (intros H; discriminate H); exfalso; apply Hne; reflexivity. }
  lazy beta iota. intros [= <-].
  rewrite list_ascii_of_string_of_list_ascii.
  split; [|split].
  + cbn [rev]. rewrite string_of_list_ascii_app.
    destruct (string_of_list_ascii (rev digits));
      [rewrite append_nil_l | rewrite append_cons]; discriminate.
  + apply List.Forall_forall. intros y Hy.
    change (In y (rev (c :: digits))) in Hy. apply <- in_rev in Hy.
    rewrite List.Forall_forall in Hall. apply Hall. exact Hy.
  + exists (string_of_list_ascii (rev rest)).
    assert (E : list_ascii_of_string s
                = (rev rest ++ "/"%char :: rev (c :: digits))%list).
    { rewrite <- (rev_involutive (list_ascii_of_string s)). fold backwards.
      rewrite Hsplit, rev_app_distr. cbn [rev]. rewrite <- app_assoc. reflexivity. }
    rewrite <- (string_of_list_ascii_of_string s), E, string_of_list_ascii_app.
    reflexivity.
Qed.

Lemma match_trailing_digits_complete (before d : string) :
  d <> EmptyString -> all_digits d ->
  match_trailing_digits (before ++ "/" ++ d) = Some d.
Proof.
  unfold match_trailing_digits, all_digits.
  set (backwards := rev (list_ascii_of_string (before ++ "/" ++ d))).
  intros Hne Hdigits.
  assert (E : backwards
              = (rev (list_ascii_of_string d)
                 ++ "/"%char :: rev (list_ascii_of_string before))%list).
  { unfold backwards.
    change (before ++ "/" ++ d) with (before ++ String "/" d).
    rewrite list_ascii_of_string_app. cbn [list_ascii_of_string].
    rewrite rev_app_distr. cbn [rev]. rewrite <- app_assoc. reflexivity. }
  destruct (take_drop_while_app is_digit (rev (list_ascii_of_string d))
              (rev (list_ascii_of_string before)) "/"%char) as [Ht Hd].
  { apply List.Forall_forall. intros y Hy. apply <- in_rev in Hy.
    rewrite List.Forall_forall in Hdigits. apply Hdigits. exact Hy. }
  { reflexivity. }
  rewrite E, Ht, Hd.
  destruct (rev (list_ascii_of_string d)) as [|c digits] eqn:Er.
  + exfalso. apply Hne. rewrite <- (string_of_list_ascii_of_string d).
    rewrite <- (rev_involutive (list_ascii_of_string d)), Er. reflexivity.
  + rewrite <- Er, rev_involutive, string_of_list_ascii_of_string. reflexivity.
Qed.

(** X15: the pattern that extracts the shop identifier matches exactly the
    texts that end in a slash followed by one or more decimal digits, and
    captures those digits: the capture is never empty, is all digits, and
    the text is some prefix, a slash, and the capture. *)
Theorem match_trailing_digits_captures_final_digits :
  forall (s d : string),
    match_trailing_digits s = Some d
    <-> d <> EmptyString /\ all_digits d /\ exists before, s = before ++ "/" ++ d.
Proof.
  intros s d. split.
  - apply match_trailing_digits_sound.
  - intros (Hne & Hdigits & before & ->).
    apply match_trailing_digits_complete; assumption.
Qed.

Lemma match_trailing_digits_captures_final_digits_witness :
  match_trailing_digits "https://shopify.com/91454472574" = Some "91454472574".
Proof.
  apply (proj2 (match_trailing_digits_captures_final_digits
                  "https://shopify.com/91454472574" "91454472574")).
  split; [discriminate|]. split; [repeat constructor|].
  exists "https://shopify.com". reflexivity.
Defined.

(** X16: the routes take the shop identifier from [SHOP_ID] when it is set
    and not empty; otherwise from the digits that end
    [PUBLIC_CUSTOMER_ACCOUNT_API_URL] after a slash; and find none when that
    variable is missing too or does not end that way. *)
Theorem shop_id_of_sources :
  forall (env : Env),
    (truthy_str (SHOP_ID env) = true -> shop_id_of env = SHOP_ID env)
    /\ (forall before d,
           truthy_str (SHOP_ID env) = false ->
           PUBLIC_CUSTOMER_ACCOUNT_API_URL env = Some (before ++ "/" ++ d) ->
           d <> EmptyString -> all_digits d ->
           shop_id_of env = Some d)
    /\ (truthy_str (SHOP_ID env) = false ->
        (forall url, PUBLIC_CUSTOMER_ACCOUNT_API_URL env = Some url ->
                     match_trailing_digits url = None) ->
        truthy_str (shop_id_of env) = false).
Proof.
  intros env. unfold shop_id_of. split; [|split].
  - intros ->. reflexivity.
  - intros before d Hid Hurl Hne Hdigits. rewrite Hid, Hurl. cbn [negb andb].
    assert (Hm : match_trailing_digits (before ++ "/" ++ d) = Some d)
      by (apply match_trailing_digits_complete; assumption).
    assert (Ht : truthy_str (Some (before ++ "/" ++ d)) = true).
    { cbn. destruct before; reflexivity. }
    rewrite Ht. unfold the. cbn [from_option id]. rewrite Hm. reflexivity.
  - intros Hid Hnone. rewrite Hid. cbn [negb andb].
    destruct (PUBLIC_CUSTOMER_ACCOUNT_API_URL env) as [url|]; [|exact Hid].
    destruct (truthy_str (Some url)); [|exact Hid].
    unfold the. cbn [from_option id]. rewrite (Hnone url eq_refl). exact Hid.
Qed.

Lemma shop_id_of_sources_witness :
  shop_id_of Sample.env = Some "91454472574".
Proof.
  apply (proj1 (proj2 (shop_id_of_sources Sample.env)) "https://shopify.com").
  - reflexivity.
  - reflexivity.
  - discriminate.
  - repeat constructor.
Defined.

(** ** The callback route, case by case *)

Lemma exchangeCodeForToken_calls (rt : Runtime) (params : TokenRequestParams) (w : World) :
  calls (snd (exchangeCodeForToken rt params w))
  = List.app (calls w)
      [{| fr_url := tokenEndpoint params;
          fr_method := "POST";
          fr_headers := form_headers;
          fr_body := [("grant_type", "authorization_code");
                      ("client_id", clientId params);
                      ("redirect_uri", redirectUri params);
                      ("code", code params);
                      ("code_verifier", value_toString (codeVerifier params))] |}].
Proof. unfold exchangeCodeForToken. one_fetch rt w. Qed.

(** What the route does, in terms of its validation steps and of the outcome
    of the exchange. *)
Lemma callback_loader_value (rt : Runtime) (request : Request) (env : Env) (w : World) :
  callback_loader rt request env w =
  if truthy_str (searchParams_get "error" request)
  then (inr (redirect ("/account/login?error=" ++ the (searchParams_get "error" request))), w)
  else if negb (truthy_str (searchParams_get "code" request))
          || negb (truthy_str (searchParams_get "state" request))
  then (inr (redirect "/account/login?error=invalid_callback"), w)
  else if differs_from_stored (the (searchParams_get "state" request)) (session w !! STATE)
  then (inr (redirect "/account/login?error=invalid_state"), w)
  else if negb (truthy_opt (session w !! CODE_VERIFIER))
  then (inr (redirect "/account/login?error=missing_verifier"), w)
  else if config_missing env
  then (inl (Error "Required environment variables not set"), w)
  else if negb (truthy_str (shop_id_of env))
  then (inl (Error "SHOP_ID could not be determined from environment variables"), w)
  else
    match session w !! CODE_VERIFIER with
    | None => (inr (redirect "/account/login?error=missing_verifier"), w)
    | Some codeVerifier =>
        match exchangeCodeForToken rt (callback_exchange request env codeVerifier) w with
        | (inl _, w1) => (inr (redirect "/account/login?error=token_exchange_failed"), w1)
        | (inr tokenResponse, w1) =>
            match nonce_accepted rt (session w1 !! NONCE) (id_token tokenResponse) with
            | None => (inr (redirect "/account/login?error=token_exchange_failed"), w1)
            | Some false => (inr (redirect "/account/login?error=invalid_nonce"), w1)
            | Some true =>
                let stored :=
                  persisted tokenResponse
                    (clock rt (ticks w1) + expires_in tokenResponse * 1000) (session w1) in
                (inr {| location := Path "/account"; set_cookie := Some stored |},
                 {| session := stored; ticks := S (ticks w1); calls := calls w1 |})
            end
        end
    end.
Proof.
  unfold callback_loader, config_missing.
  destruct (truthy_str (searchParams_get "error" request)); [reflexivity|].
  destruct (negb _ || negb _); [reflexivity|].
  unfold bind at 1. unfold session_get at 1.
  destruct (differs_from_stored _ _); [reflexivity|].
  unfold bind at 1. unfold session_get at 1.
  destruct (session w !! CODE_VERIFIER) as [codeVerifier|]; [|reflexivity].
  cbn [truthy_opt]. destruct (truthy codeVerifier); [|reflexivity]. cbn [negb].
  destruct (negb _ || negb _); [reflexivity|].
  destruct (negb (truthy_str (shop_id_of env))); [reflexivity|].
  unfold try_catch, bind at 1. fold (callback_exchange request env codeVerifier).
  destruct (exchangeCodeForToken rt _ w) as [[e|tokenResponse] w1]; [reflexivity|].
  unfold bind at 1. unfold session_get at 1. unfold nonce_accepted.
  destruct (session w1 !! NONCE) as [storedNonce|].
  - destruct (truthy storedNonce).
    + destruct (getNonce rt (id_token tokenResponse)) as [e|tokenNonce]; [reflexivity|].
      destruct (nonce_differs tokenNonce storedNonce); reflexivity.
    + reflexivity.
  - reflexivity.
Qed.

Lemma persisted_lookups (tokenResponse : AccessTokenResponse) (expiry : Z)
      (s : gmap string value) :
  persisted tokenResponse expiry s !! ACCESS_TOKEN = Some (VStr (access_token tokenResponse))
  /\ persisted tokenResponse expiry s !! REFRESH_TOKEN
     = Some (VStr (refresh_token tokenResponse))
  /\ persisted tokenResponse expiry s !! ID_TOKEN = Some (VStr (id_token tokenResponse))
  /\ persisted tokenResponse expiry s !! EXPIRES_AT = Some (VNum expiry)
  /\ Forall (fun key => persisted tokenResponse expiry s !! key = None) in_flight_keys
  /\ (forall key, ~ In key (token_keys ++ in_flight_keys) ->
                  persisted tokenResponse expiry s !! key = s !! key).
Proof.
  unfold persisted, in_flight_keys, token_keys.
  repeat split;
    try (rewrite !lookup_delete_ne by discriminate;
         repeat first [ apply lookup_insert_eq | rewrite lookup_insert_ne by discriminate ]).
  - repeat constructor;
      repeat first [ apply lookup_delete_eq | rewrite lookup_delete_ne by discriminate ].
  - intros key Hkey. cbn [In app] in Hkey.
    rewrite !lookup_delete_ne by intuition congruence.
    rewrite !lookup_insert_ne by intuition congruence. reflexivity.
Qed.

(** X17: a callback that passes validation, whose code exchange succeeds and
    whose nonce check passes, redirects to the account page with a cookie
    that carries the session it leaves; that session holds the three tokens
    of the response and, as expiry, the clock reading made after the
    exchange plus [expires_in] seconds in milliseconds; the verifier, state
    and nonce are gone from it; every other key is as before. *)
Theorem callback_stores_tokens :
  forall (rt : Runtime) (request : Request) (env : Env) (w w1 : World)
         (codeVerifier : value) (tokenResponse : AccessTokenResponse),
    truthy_str (searchParams_get "error" request) = false ->
    truthy_str (searchParams_get "code" request) = true ->
    truthy_str (searchParams_get "state" request) = true ->
    session w !! STATE = Some (VStr (the (searchParams_get "state" request))) ->
    session w !! CODE_VERIFIER = Some codeVerifier -> truthy codeVerifier = true ->
    config_missing env = false ->
    truthy_str (shop_id_of env) = true ->
    exchangeCodeForToken rt (callback_exchange request env codeVerifier) w
    = (inr tokenResponse, w1) ->
    nonce_accepted rt (session w !! NONCE) (id_token tokenResponse) = Some true ->
    let expiry := clock rt (ticks w) + expires_in tokenResponse * 1000 in
    let stored := persisted tokenResponse expiry (session w) in
    callback_loader rt request env w
    = (inr {| location := Path "/account"; set_cookie := Some stored |},
       {| session := stored; ticks := S (ticks w); calls := calls w1 |})
    /\ stored !! ACCESS_TOKEN = Some (VStr (access_token tokenResponse))
    /\ stored !! REFRESH_TOKEN = Some (VStr (refresh_token tokenResponse))
    /\ stored !! ID_TOKEN = Some (VStr (id_token tokenResponse))
    /\ stored !! EXPIRES_AT = Some (VNum expiry)
    /\ Forall (fun key => stored !! key = None) in_flight_keys
    /\ (forall key, ~ In key (token_keys ++ in_flight_keys) ->
                    stored !! key = session w !! key).
Proof.
  intros rt request env w w1 codeVerifier tokenResponse
         Herror Hcode Hstate Hstored Hverifier Hv Hconfig Hshop Hexchange Hnonce
         expiry stored.
  pose proof (exchangeCodeForToken_same_session rt
                (callback_exchange request env codeVerifier) w) as [Hs Ht].
  rewrite Hexchange in Hs, Ht. cbn [snd] in Hs, Ht.
  split; [|apply persisted_lookups].
  rewrite callback_loader_value, Herror, Hcode, Hstate, Hstored, differs_from_stored_same,
    Hverifier. cbn [negb orb truthy_opt]. rewrite Hv, Hconfig, Hshop. cbn [negb].
  rewrite Hexchange, Hs, Ht, Hnonce. reflexivity.
Qed.

Lemma callback_stores_tokens_witness :
  callback_loader Sample.rt_granted Sample.genuine_callback Sample.env Scene.returning
  = (inr {| location := Path "/account";
            set_cookie := Some (persisted Sample.issued (1000 + 3600 * 1000)
                                  (session Scene.returning)) |},
     {| session := persisted Sample.issued (1000 + 3600 * 1000) (session Scene.returning);
        ticks := 1;
        calls := calls Scene.exchanged |}).
Proof.
  pose proof (callback_stores_tokens Sample.rt_granted Sample.genuine_callback Sample.env
                Scene.returning Scene.exchanged (VStr "xyz") Sample.issued
                eq_refl eq_refl eq_refl eq_refl eq_refl eq_refl eq_refl eq_refl
                eq_refl eq_refl) as H.
  cbv zeta in H. exact (proj1 H).
Defined.


Lemma differs_from_stored_false (state : string) (stored : option value) :
  differs_from_stored state stored = false -> stored = Some (VStr state).
Proof.
  unfold differs_from_stored. destruct stored as [[s|n]|]; try discriminate.
  destruct (String.eqb_spec state s) as [->|Hne]; [reflexivity | discriminate].
Qed.

(** X19: whatever the request, the callback route sends at most one request
    to the network, and only after the received state was found equal to
    the stored one: the POST of the authorization-code form to the shop's
    token endpoint, carrying the received code and the verifier that the
    session holds.  It never calls discovery. *)
Theorem callback_calls_only_the_token_endpoint :
  forall (rt : Runtime) (request : Request) (env : Env) (w : World),
    calls (snd (callback_loader rt request env w)) = calls w
    \/ exists codeVerifier,
         session w !! CODE_VERIFIER = Some codeVerifier
         /\ session w !! STATE = Some (VStr (the (searchParams_get "state" request)))
         /\ calls (snd (callback_loader rt request env w))
            = List.app (calls w)
                [{| fr_url := "https://shopify.com/authentication/"
                              ++ the (shop_id_of env) ++ "/oauth/token";
                    fr_method := "POST";
                    fr_headers := form_headers;
                    fr_body :=
                      [("grant_type", "authorization_code");
                       ("client_id", the (or_str (PUBLIC_CUSTOMER_ACCOUNT_API_CLIENT_ID env)
                                                 (CUSTOMER_ACCOUNT_CLIENT_ID env)));
                       ("redirect_uri", origin request ++ "/account/authorize/callback");
                       ("code", the (searchParams_get "code" request));
                       ("code_verifier", value_toString codeVerifier)] |}].
Proof.
  intros rt request env w. rewrite callback_loader_value.
  destruct (truthy_str (searchParams_get "error" request)); [left; reflexivity|].
  destruct (negb _ || negb _); [left; reflexivity|].
  destruct (differs_from_stored _ _) eqn:Hstate; [left; reflexivity|].
  repeat match goal with
         | |- context [if ?b then _ else _] => destruct b; [left; reflexivity|]
         end.
  destruct (session w !! CODE_VERIFIER) as [codeVerifier|]; [|left; reflexivity].
  right. exists codeVerifier. split; [reflexivity|]. split.
  - apply differs_from_stored_false. exact Hstate.
  - pose proof (exchangeCodeForToken_calls rt
                  (callback_exchange request env codeVerifier) w) as Hcalls.
    destruct (exchangeCodeForToken rt _ w) as [[e|tokenResponse] w1]; cbn [snd] in Hcalls.
    + exact Hcalls.
    + destruct (nonce_accepted rt _ _) as [[|]|]; exact Hcalls.
Qed.



(** X21: in a callback that passes validation, when the code exchange
    throws, or succeeds with an identity token that cannot be decoded while
    the session holds a nonce, the route answers [token_exchange_failed] and
    the session is as it was: the tokens of the response, if any, are
    dropped. *)
Theorem callback_exchange_failure_keeps_session :
  forall (rt : Runtime) (request : Request) (env : Env) (w w1 : World)
         (codeVerifier : value),
    truthy_str (searchParams_get "error" request) = false ->
    truthy_str (searchParams_get "code" request) = true ->
    truthy_str (searchParams_get "state" request) = true ->
    session w !! STATE = Some (VStr (the (searchParams_get "state" request))) ->
    session w !! CODE_VERIFIER = Some codeVerifier -> truthy codeVerifier = true ->
    config_missing env = false ->
    truthy_str (shop_id_of env) = true ->
    (exists e, exchangeCodeForToken rt (callback_exchange request env codeVerifier) w
               = (inl e, w1))
    \/ (exists tokenResponse,
           exchangeCodeForToken rt (callback_exchange request env codeVerifier) w
           = (inr tokenResponse, w1)
           /\ nonce_accepted rt (session w !! NONCE) (id_token tokenResponse) = None) ->
    callback_loader rt request env w
    = (inr (redirect "/account/login?error=token_exchange_failed"), w1)
    /\ session w1 = session w.
Proof.
  intros rt request env w w1 codeVerifier
         Herror Hcode Hstate Hstored Hverifier Hv Hconfig Hshop Hfailure.
  pose proof (exchangeCodeForToken_same_session rt
                (callback_exchange request env codeVerifier) w) as [Hs _].
  rewrite callback_loader_value, Herror, Hcode, Hstate, Hstored, differs_from_stored_same,
    Hverifier. cbn [negb orb truthy_opt]. rewrite Hv, Hconfig, Hshop. cbn [negb].
  destruct Hfailure as [[e He] | (tokenResponse & He & Hnonce)];
    rewrite He in *; cbn [snd] in Hs.
  - split; [reflexivity | exact Hs].
  - split; [rewrite Hs, Hnonce; reflexivity | exact Hs].
Qed.

Lemma callback_exchange_failure_keeps_session_witness :
  callback_loader Sample.rt_rejected Sample.genuine_callback Sample.env Sample.pending
  = (inr (redirect "/account/login?error=token_exchange_failed"),
     snd (exchangeCodeForToken Sample.rt_rejected
            (callback_exchange Sample.genuine_callback Sample.env (VStr "xyz"))
            Sample.pending))
  /\ session (snd (exchangeCodeForToken Sample.rt_rejected
                     (callback_exchange Sample.genuine_callback Sample.env (VStr "xyz"))
                     Sample.pending))
     = session Sample.pending.
Proof.
  apply (callback_exchange_failure_keeps_session Sample.rt_rejected Sample.genuine_callback
           Sample.env Sample.pending _ (VStr "xyz")); try reflexivity.
  left. eexists. vm_compute. reflexivity.
Defined.

(** ** Sessions after a token set was stored *)

Lemma stored_tokens_persisted (tokenResponse : AccessTokenResponse) (expiry : Z)
      (s : gmap string value) :
  stored_tokens (persisted tokenResponse expiry s) =
  if str_truthy (access_token tokenResponse) && str_truthy (refresh_token tokenResponse)
     && str_truthy (id_token tokenResponse) && negb (expiry =? 0)%Z
  then Some {| accessToken := VStr (access_token tokenResponse);
               refreshToken := VStr (refresh_token tokenResponse);
               idToken := VStr (id_token tokenResponse);
               expiresAt := VNum expiry |}
  else None.
Proof.
  destruct (persisted_lookups tokenResponse expiry s) as (Ha & Hr & Hi & He & _).
  unfold stored_tokens. rewrite Ha, Hr, Hi, He. reflexivity.
Qed.

(** X22: in a session left by a successful callback, when the three tokens
    of the response are not empty and the expiry is not [0], and the clock
    reads less than the expiry, the session counts as authenticated and
    [getValidAccessToken] returns the stored access token without a network
    call; when one of the tokens is empty or the expiry is [0], the session
    counts as unauthenticated although the tokens were stored. *)
Theorem session_after_callback :
  forall (rt : Runtime) (shopDomain clientId : string) (w : World)
         (tokenResponse : AccessTokenResponse) (expiry : Z) (before : gmap string value),
    session w = persisted tokenResponse expiry before ->
    (access_token tokenResponse <> EmptyString ->
     refresh_token tokenResponse <> EmptyString ->
     id_token tokenResponse <> EmptyString ->
     clock rt (ticks w) < expiry -> expiry <> 0 ->
     isCustomerAuthenticated rt w = (inr true, tick w)
     /\ getValidAccessToken rt shopDomain clientId w
        = (inr (Some (VStr (access_token tokenResponse))), tick w))
    /\ (access_token tokenResponse = EmptyString \/ refresh_token tokenResponse = EmptyString
        \/ id_token tokenResponse = EmptyString \/ expiry = 0 ->
        isCustomerAuthenticated rt w = (inr false, w)
        /\ getValidAccessToken rt shopDomain clientId w = (inr None, w)).
Proof.
  intros rt shopDomain clientId w tokenResponse expiry before Hsession.
  pose proof (stored_tokens_persisted tokenResponse expiry before) as Htokens.
  rewrite <- Hsession in Htokens. split.
  - intros Ha Hr Hi Hnow He. apply str_truthy_iff in Ha, Hr, Hi.
    rewrite Ha, Hr, Hi in Htokens. cbn [andb] in Htokens.
    assert (Hz : (expiry =? 0)%Z = false) by lia. rewrite Hz in Htokens. cbn [negb] in Htokens.
    assert (Hfresh : number_ge rt (clock rt (ticks w)) (VNum expiry) = false)
      by (cbn; lia).
    split.
    + rewrite isCustomerAuthenticated_eq, Htokens. cbn [expiresAt]. rewrite Hfresh. reflexivity.
    + apply (getValidAccessToken_unexpired rt _ _ w _ Htokens). exact Hfresh.
  - intros Hempty.
    assert (Hnone : stored_tokens (session w) = None).
    { rewrite Htokens. destruct Hempty as [-> | [-> | [-> | ->]]]; cbn;
        repeat rewrite ?andb_false_r, ?andb_false_l; reflexivity. }
    split.
    + rewrite isCustomerAuthenticated_eq, Hnone. reflexivity.
    + unfold getValidAccessToken, bind. rewrite getCustomerTokens_eq, Hnone. reflexivity.
Qed.

Lemma session_after_callback_witness :
  isCustomerAuthenticated Sample.rt_granted
    {| session := persisted Sample.issued 3601000 (session Scene.returning);
       ticks := 1; calls := calls Scene.exchanged |}
  = (inr true,
     tick {| session := persisted Sample.issued 3601000 (session Scene.returning);
             ticks := 1; calls := calls Scene.exchanged |})
  /\ getValidAccessToken Sample.rt_granted "shop.example.com" "client-1"
       {| session := persisted Sample.issued 3601000 (session Scene.returning);
          ticks := 1; calls := calls Scene.exchanged |}
     = (inr (Some (VStr "A")),
        tick {| session := persisted Sample.issued 3601000 (session Scene.returning);
                ticks := 1; calls := calls Scene.exchanged |}).
Proof.
  apply (proj1 (session_after_callback Sample.rt_granted "shop.example.com" "client-1"
                  {| session := persisted Sample.issued 3601000 (session Scene.returning);
                     ticks := 1; calls := calls Scene.exchanged |}
                  Sample.issued 3601000 (session Scene.returning) eq_refl));
    try discriminate.
  vm_compute. reflexivity.
Defined.

(** ** The guards *)

Lemma stored_tokens_truthy (s : gmap string value) (tokens : CustomerTokens) :
  stored_tokens s = Some tokens ->
  truthy (accessToken tokens) = true /\ truthy (refreshToken tokens) = true
  /\ truthy (idToken tokens) = true /\ truthy (expiresAt tokens) = true.
Proof.
  unfold stored_tokens.
  destruct (s !! ACCESS_TOKEN) as [a|]; [|discriminate].
  destruct (s !! REFRESH_TOKEN) as [r|]; [|discriminate].
  destruct (s !! ID_TOKEN) as [i|]; [|discriminate].
  destruct (s !! EXPIRES_AT) as [e|]; [|discriminate].
  destruct (truthy a) eqn:Ha, (truthy r) eqn:Hr, (truthy i) eqn:Hi, (truthy e) eqn:He;
    try discriminate.
  intros [= <-]. cbn. auto.
Qed.

Lemma getValidAccessToken_returns (rt : Runtime) (shopDomain clientId : string) (w : World) :
  exists token, fst (getValidAccessToken rt shopDomain clientId w) = inr token
                /\ (forall t, token = Some t -> truthy t = true
                              \/ exists newTokens, t = VStr (r_access_token newTokens)).
Proof.
  destruct (stored_tokens (session w)) as [tokens|] eqn:Hheld.
  - destruct (number_ge rt (clock rt (ticks w)) (expiresAt tokens)) eqn:Hexpired.
    + rewrite (getValidAccessToken_expired rt _ _ w tokens Hheld Hexpired).
      destruct (refresh_attempt rt shopDomain clientId tokens (tick w))
        as [[e|newTokens] w1]; eexists; (split; [reflexivity|]).
      * discriminate.
      * intros t [= <-]. right. eauto.
    + rewrite (getValidAccessToken_unexpired rt _ _ w tokens Hheld Hexpired).
      eexists. split; [reflexivity|]. intros t [= <-]. left.
      apply (stored_tokens_truthy _ _ Hheld).
  - unfold getValidAccessToken, bind. rewrite getCustomerTokens_eq, Hheld.
    eexists. split; [reflexivity|]. discriminate.
Qed.

(** X23: the session predicate, the token accessor and the optional guard
    never throw: whatever the session holds and whatever the network does,
    each returns a value. *)
Theorem session_guards_never_throw :
  forall (rt : Runtime) (shopDomain clientId : string) (env : Env) (w : World),
    (exists authed, fst (isCustomerAuthenticated rt w) = inr authed)
    /\ (exists token, fst (getValidAccessToken rt shopDomain clientId w) = inr token)
    /\ (exists token, fst (optionalAuth rt env w) = inr token).
Proof.
  intros rt shopDomain clientId env w. split; [|split].
  - rewrite isCustomerAuthenticated_eq.
    destruct (stored_tokens (session w)); eexists; reflexivity.
  - destruct (getValidAccessToken_returns rt shopDomain clientId w) as (token & H & _).
    exists token. exact H.
  - unfold optionalAuth.
    destruct (negb _ || negb _); [eexists; reflexivity|].
    unfold bind. rewrite isCustomerAuthenticated_eq.
    destruct (stored_tokens (session w)) as [tokens|]; cbn [negb]; [|eexists; reflexivity].
    destruct (negb (number_ge rt _ _)); cbn [negb]; [|eexists; reflexivity].
    unfold try_catch.
    match goal with
    | |- context [getValidAccessToken rt ?d ?c ?w0] =>
        destruct (getValidAccessToken_returns rt d c w0) as (token & H & _);
        destruct (getValidAccessToken rt d c w0) as [[e|t] w1]
    end; cbn [fst] in *; [discriminate|].
    eexists. reflexivity.
Qed.


(** X25: [getAuthenticatedToken] has three outcomes only: with the
    configuration incomplete it throws the configuration error and touches
    nothing; otherwise it either returns a token that is truthy, or throws
    the redirect to the authorization route.  A failure of discovery or of
    the refresh never escapes it. *)
Theorem getAuthenticatedToken_outcomes :
  forall (rt : Runtime) (env : Env) (w : World),
    (config_missing env = true ->
     getAuthenticatedToken rt env w
     = (inl (Error "PUBLIC_STORE_DOMAIN and CUSTOMER_ACCOUNT_CLIENT_ID must be set"), w))
    /\ (config_missing env = false ->
        (exists token, fst (getAuthenticatedToken rt env w) = inr token
                       /\ truthy token = true)
        \/ fst (getAuthenticatedToken rt env w) = inl (ThrownRedirect "/account/authorize")).
Proof.
  intros rt env w. unfold getAuthenticatedToken. fold (config_missing env).
  split; intros ->; [reflexivity|].
  unfold bind.
  match goal with
  | |- context [getValidAccessToken rt ?d ?c w] =>
      destruct (getValidAccessToken_returns rt d c w) as (token & H & _);
      destruct (getValidAccessToken rt d c w) as [[e|t] w1]
  end; cbn [fst] in H; [discriminate|].
  destruct t as [t|]; [|right; reflexivity].
  destruct (truthy t) eqn:Ht; [left | right; reflexivity].
  exists t. split; [reflexivity | exact Ht].
Qed.

Lemma getAuthenticatedToken_outcomes_witness :
  getAuthenticatedToken Sample.rt_granted
    {| PUBLIC_STORE_DOMAIN := None;
       PUBLIC_CUSTOMER_ACCOUNT_API_CLIENT_ID := None;
       CUSTOMER_ACCOUNT_CLIENT_ID := Some "client-1";
       SHOP_ID := None;
       PUBLIC_CUSTOMER_ACCOUNT_API_URL := None |} Sample.fresh
  = (inl (Error "PUBLIC_STORE_DOMAIN and CUSTOMER_ACCOUNT_CLIENT_ID must be set"),
     Sample.fresh).
Proof.
  apply (proj1 (getAuthenticatedToken_outcomes Sample.rt_granted
                  {| PUBLIC_STORE_DOMAIN := None;
                     PUBLIC_CUSTOMER_ACCOUNT_API_CLIENT_ID := None;
                     CUSTOMER_ACCOUNT_CLIENT_ID := Some "client-1";
                     SHOP_ID := None;
                     PUBLIC_CUSTOMER_ACCOUNT_API_URL := None |} Sample.fresh)).
  reflexivity.
Defined.

Lemma stored_tokens_incomplete (s : gmap string value) (key : string) :
  In key token_keys -> truthy_opt (s !! key) = false -> stored_tokens s = None.
Proof.
  unfold token_keys, stored_tokens. cbn [In].
  intros [<- | [<- | [<- | [<- | []]]]] Hkey;
    destruct (s !! ACCESS_TOKEN) as [a|]; try reflexivity;
    destruct (s !! REFRESH_TOKEN) as [r|]; try reflexivity;
    destruct (s !! ID_TOKEN) as [i|]; try reflexivity;
    destruct (s !! EXPIRES_AT) as [e|]; try reflexivity;
    cbn [truthy_opt] in Hkey; rewrite Hkey;
    repeat rewrite ?andb_false_r, ?andb_false_l; reflexivity.
Qed.

Lemma unauthenticated_everywhere (rt : Runtime) (shopDomain clientId : string)
      (env : Env) (w : World) :
  stored_tokens (session w) = None ->
  isCustomerAuthenticated rt w = (inr false, w)
  /\ getValidAccessToken rt shopDomain clientId w = (inr None, w)
  /\ optionalAuth rt env w = (inr None, w)
  /\ requireCustomerAuth rt w = (inl (ThrownRedirect "/account/authorize"), w)
  /\ (config_missing env = false ->
      getAuthenticatedToken rt env w = (inl (ThrownRedirect "/account/authorize"), w)).
Proof.
  intros Hnone.
  assert (Hauth : isCustomerAuthenticated rt w = (inr false, w))
    by (rewrite isCustomerAuthenticated_eq, Hnone; reflexivity).
  assert (Hvalid : forall d c, getValidAccessToken rt d c w = (inr None, w)).
  { intros d c. unfold getValidAccessToken, bind.
    rewrite getCustomerTokens_eq, Hnone. reflexivity. }
  split; [exact Hauth|]. split; [apply Hvalid|]. split; [|split].
  - unfold optionalAuth. destruct (negb _ || negb _); [reflexivity|].
    unfold bind. rewrite Hauth. reflexivity.
  - unfold requireCustomerAuth, bind. rewrite Hauth. reflexivity.
  - intros Hconfig. unfold getAuthenticatedToken. fold (config_missing env).
    rewrite Hconfig. unfold bind. rewrite Hvalid. reflexivity.
Qed.

(** X26: a session in which any one of the four token keys is unset, or
    holds an empty string or [0], counts as logged out: the predicate
    answers [false], the accessor and the optional guard return [null], the
    requiring guards throw the redirect to the authorization route; none of
    them reads the clock, calls the network or changes the session. *)
Theorem incomplete_token_set_is_logged_out :
  forall (rt : Runtime) (shopDomain clientId : string) (env : Env) (w : World)
         (key : string),
    In key token_keys -> truthy_opt (session w !! key) = false ->
    isCustomerAuthenticated rt w = (inr false, w)
    /\ getValidAccessToken rt shopDomain clientId w = (inr None, w)
    /\ optionalAuth rt env w = (inr None, w)
    /\ requireCustomerAuth rt w = (inl (ThrownRedirect "/account/authorize"), w)
    /\ (config_missing env = false ->
        getAuthenticatedToken rt env w = (inl (ThrownRedirect "/account/authorize"), w)).
Proof.
  intros rt shopDomain clientId env w key Hkey Hfalsy.
  apply unauthenticated_everywhere. apply (stored_tokens_incomplete _ key); assumption.
Qed.

Lemma incomplete_token_set_is_logged_out_witness :
  isCustomerAuthenticated Sample.rt_granted
    (Sample.world (delete REFRESH_TOKEN (Sample.logged_in 2000)))
  = (inr false, Sample.world (delete REFRESH_TOKEN (Sample.logged_in 2000))).
Proof.
  apply (incomplete_token_set_is_logged_out Sample.rt_granted "shop.example.com" "client-1"
           Sample.env (Sample.world (delete REFRESH_TOKEN (Sample.logged_in 2000)))
           REFRESH_TOKEN).
  - right. left. reflexivity.
  - vm_compute. reflexivity.
Defined.

(** X27: after the logout route has run past its configuration check, and
    likewise after [clearCustomerSession], the session counts as logged out
    for every guard, whatever it held before. *)
Theorem logged_out_after_logout :
  forall (rt : Runtime) (request : Request) (shopDomain clientId : string)
         (env : Env) (w : World),
    truthy_str (PUBLIC_STORE_DOMAIN env) = true ->
    Forall (fun after =>
              isCustomerAuthenticated rt after = (inr false, after)
              /\ getValidAccessToken rt shopDomain clientId after = (inr None, after)
              /\ optionalAuth rt env after = (inr None, after)
              /\ requireCustomerAuth rt after
                 = (inl (ThrownRedirect "/account/authorize"), after))
           [snd (logout_loader rt request env w); snd (clearCustomerSession w)].
Proof.
  intros rt request shopDomain clientId env w Hdomain.
  assert (Hall : forall after, session after !! ACCESS_TOKEN = None ->
            isCustomerAuthenticated rt after = (inr false, after)
            /\ getValidAccessToken rt shopDomain clientId after = (inr None, after)
            /\ optionalAuth rt env after = (inr None, after)
            /\ requireCustomerAuth rt after
               = (inl (ThrownRedirect "/account/authorize"), after)).
  { intros after Hnone.
    destruct (unauthenticated_everywhere rt shopDomain clientId env after)
      as (H1 & H2 & H3 & H4 & _); [|auto].
    apply (stored_tokens_incomplete _ ACCESS_TOKEN); [left; reflexivity|].
    rewrite Hnone. reflexivity. }
  constructor; [|constructor; [|constructor]]; apply Hall.
  - rewrite (logout_loader_session rt request env w Hdomain).
    rewrite !lookup_delete_ne by discriminate. apply lookup_delete_eq.
  - change (session (snd (clearCustomerSession w)))
      with (delete NONCE (delete STATE (delete CODE_VERIFIER (delete EXPIRES_AT
              (delete ID_TOKEN (delete REFRESH_TOKEN (delete ACCESS_TOKEN (session w)))))))).
    rewrite !lookup_delete_ne by discriminate. apply lookup_delete_eq.
Qed.

Lemma logged_out_after_logout_witness :
  Forall (fun after =>
            isCustomerAuthenticated Sample.rt_granted after = (inr false, after)
            /\ getValidAccessToken Sample.rt_granted "shop.example.com" "client-1" after
               = (inr None, after)
            /\ optionalAuth Sample.rt_granted Sample.env after = (inr None, after)
            /\ requireCustomerAuth Sample.rt_granted after
               = (inl (ThrownRedirect "/account/authorize"), after))
         [snd (logout_loader Sample.rt_granted (Sample.request []) Sample.env Sample.fresh);
          snd (clearCustomerSession Sample.fresh)].
Proof.
  apply (logged_out_after_logout Sample.rt_granted (Sample.request [])
           "shop.example.com" "client-1" Sample.env Sample.fresh).
  reflexivity.
Defined.

(** ** Storing tokens, and where logout sends the browser *)

(** X28: [storeCustomerTokens] writes the three tokens of the response and
    an expiry computed from one reading of the clock, and nothing else: the
    verifier, state and nonce keys, like every other key, are as before and
    no network call is made.  What the callback route leaves is that same
    session with the verifier, state and nonce removed; and
    [getCustomerTokens] finds the tokens afterwards exactly when none of
    them is empty and the expiry is not [0]. *)
Theorem storeCustomerTokens_writes_the_token_set :
  forall (rt : Runtime) (tokens : AccessTokenResponse) (w : World),
    let expiry := clock rt (ticks w) + expires_in tokens * 1000 in
    let after := snd (storeCustomerTokens rt tokens w) in
    fst (storeCustomerTokens rt tokens w) = inr tt
    /\ session after
       = <[EXPIRES_AT := VNum expiry]>
           (<[ID_TOKEN := VStr (id_token tokens)]>
              (<[REFRESH_TOKEN := VStr (refresh_token tokens)]>
                 (<[ACCESS_TOKEN := VStr (access_token tokens)]> (session w))))
    /\ calls after = calls w
    /\ (forall key, ~ In key token_keys -> session after !! key = session w !! key)
    /\ persisted tokens expiry (session w)
       = delete NONCE (delete STATE (delete CODE_VERIFIER (session after)))
    /\ fst (getCustomerTokens after)
       = inr (if str_truthy (access_token tokens) && str_truthy (refresh_token tokens)
                 && str_truthy (id_token tokens) && negb (expiry =? 0)%Z
              then Some {| accessToken := VStr (access_token tokens);
                           refreshToken := VStr (refresh_token tokens);
                           idToken := VStr (id_token tokens);
                           expiresAt := VNum expiry |}
              else None).
Proof.
  intros rt tokens w expiry after.
  assert (Hsession : session after
            = <[EXPIRES_AT := VNum expiry]>
                (<[ID_TOKEN := VStr (id_token tokens)]>
                   (<[REFRESH_TOKEN := VStr (refresh_token tokens)]>
                      (<[ACCESS_TOKEN := VStr (access_token tokens)]> (session w)))))
    by reflexivity.
  split; [reflexivity|]. split; [exact Hsession|]. split; [reflexivity|].
  split; [|split].
  - intros key Hkey. rewrite Hsession. cbn [In token_keys] in Hkey.
    rewrite !lookup_insert_ne by intuition congruence. reflexivity.
  - rewrite Hsession. reflexivity.
  - rewrite getCustomerTokens_eq. cbn [fst]. f_equal. rewrite Hsession.
    unfold stored_tokens.
    rewrite (lookup_insert_ne _ EXPIRES_AT ACCESS_TOKEN) by discriminate.
    rewrite (lookup_insert_ne _ ID_TOKEN ACCESS_TOKEN) by discriminate.
    rewrite (lookup_insert_ne _ REFRESH_TOKEN ACCESS_TOKEN) by discriminate.
    rewrite lookup_insert_eq.
    rewrite (lookup_insert_ne _ EXPIRES_AT REFRESH_TOKEN) by discriminate.
    rewrite (lookup_insert_ne _ ID_TOKEN REFRESH_TOKEN) by discriminate.
    rewrite lookup_insert_eq.
    rewrite (lookup_insert_ne _ EXPIRES_AT ID_TOKEN) by discriminate.
    rewrite lookup_insert_eq. rewrite lookup_insert_eq. reflexivity.
Qed.



(** ** After a refresh *)

Lemma stored_tokens_lookup (s : gmap string value) (tokens : CustomerTokens) :
  stored_tokens s = Some tokens ->
  s !! ACCESS_TOKEN = Some (accessToken tokens)
  /\ s !! REFRESH_TOKEN = Some (refreshToken tokens)
  /\ s !! ID_TOKEN = Some (idToken tokens)
  /\ s !! EXPIRES_AT = Some (expiresAt tokens).
Proof.
  unfold stored_tokens.
  destruct (s !! ACCESS_TOKEN) as [a|]; [|discriminate].
  destruct (s !! REFRESH_TOKEN) as [r|]; [|discriminate].
  destruct (s !! ID_TOKEN) as [i|]; [|discriminate].
  destruct (s !! EXPIRES_AT) as [e|]; [|discriminate].
  destruct (truthy a && truthy r && truthy i && truthy e); [|discriminate].
  intros [= <-]. repeat split.
Qed.

(** X30: a refresh is attempted once.  After a failed one, a second call of
    [getValidAccessToken] returns [null] at once, with no further network
    call.  After a successful one whose new access and refresh tokens are
    not empty, a second call made before the new expiry returns the new
    access token, again with no further network call. *)
Theorem refresh_is_attempted_once :
  forall (rt : Runtime) (shopDomain clientId : string) (w w1 : World)
         (tokens : CustomerTokens) (outcome : exn + RefreshedTokenResponse),
    getCustomerTokens w = (inr (Some tokens), w) ->
    number_ge rt (clock rt (ticks w)) (expiresAt tokens) = true ->
    refresh_attempt rt shopDomain clientId tokens (tick w) = (outcome, w1) ->
    let after := snd (getValidAccessToken rt shopDomain clientId w) in
    match outcome with
    | inl _ => getValidAccessToken rt shopDomain clientId after = (inr None, after)
    | inr newTokens =>
        let expiry := clock rt (S (ticks w)) + r_expires_in newTokens * 1000 in
        r_access_token newTokens <> EmptyString ->
        r_refresh_token newTokens <> EmptyString ->
        expiry <> 0 ->
        clock rt (ticks after) < expiry ->
        getValidAccessToken rt shopDomain clientId after
        = (inr (Some (VStr (r_access_token newTokens))), tick after)
    end.
Proof.
  intros rt shopDomain clientId w w1 tokens outcome Hheld Hexpired Hrefresh after.
  apply holds_tokens in Hheld.
  pose proof (refresh_attempt_same_session rt shopDomain clientId tokens (tick w)) as [Hs Ht].
  rewrite Hrefresh in Hs, Ht. cbn [snd session ticks tick] in Hs, Ht.
  subst after. rewrite (getValidAccessToken_expired rt _ _ w tokens Hheld Hexpired), Hrefresh.
  destruct outcome as [e|newTokens]; cbn [snd].
  - apply (unauthenticated_everywhere rt shopDomain clientId
             {| PUBLIC_STORE_DOMAIN := None; PUBLIC_CUSTOMER_ACCOUNT_API_CLIENT_ID := None;
                CUSTOMER_ACCOUNT_CLIENT_ID := None; SHOP_ID := None;
                PUBLIC_CUSTOMER_ACCOUNT_API_URL := None |}).
    apply (stored_tokens_incomplete _ ACCESS_TOKEN); [left; reflexivity|].
    cbn [session with_session].
    rewrite !lookup_delete_ne by discriminate. rewrite lookup_delete_eq. reflexivity.
  - cbv zeta. rewrite Ht.
    set (expiry := clock rt (S (ticks w)) + r_expires_in newTokens * 1000).
    intros Ha Hr He Hnow. apply str_truthy_iff in Ha, Hr.
    destruct (stored_tokens_lookup _ _ Hheld) as (_ & _ & Hid & _).
    destruct (stored_tokens_truthy _ _ Hheld) as (_ & _ & Hidt & _).
    set (after := tick (with_session _ w1)) in *.
    assert (Htokens : stored_tokens (session after)
                      = Some {| accessToken := VStr (r_access_token newTokens);
                                refreshToken := VStr (r_refresh_token newTokens);
                                idToken := idToken tokens;
                                expiresAt := VNum expiry |}).
    { unfold after. cbn [session tick with_session]. rewrite Hs. unfold stored_tokens.
      rewrite (lookup_insert_ne _ EXPIRES_AT ACCESS_TOKEN) by discriminate.
      rewrite (lookup_insert_ne _ REFRESH_TOKEN ACCESS_TOKEN) by discriminate.
      rewrite lookup_insert_eq.
      rewrite (lookup_insert_ne _ EXPIRES_AT REFRESH_TOKEN) by discriminate.
      rewrite lookup_insert_eq.
      rewrite (lookup_insert_ne _ EXPIRES_AT ID_TOKEN) by discriminate.
      rewrite (lookup_insert_ne _ REFRESH_TOKEN ID_TOKEN) by discriminate.
      rewrite (lookup_insert_ne _ ACCESS_TOKEN ID_TOKEN) by discriminate.
      rewrite Hid, lookup_insert_eq. cbn [truthy]. rewrite Ha, Hr, Hidt.
      assert (Hz : (expiry =? 0)%Z = false) by lia. rewrite Hz. reflexivity. }
    apply (getValidAccessToken_unexpired rt _ _ after _ Htokens).
    cbn [expiresAt number_ge]. lia.
Qed.

Lemma refresh_is_attempted_once_witness :
  getValidAccessToken Sample.rt_rejected "shop.example.com" "client-1"
    (snd (getValidAccessToken Sample.rt_rejected "shop.example.com" "client-1"
            Sample.expired))
  = (inr None,
     snd (getValidAccessToken Sample.rt_rejected "shop.example.com" "client-1"
            Sample.expired)).
Proof.
  apply (refresh_is_attempted_once Sample.rt_rejected "shop.example.com" "client-1"
           Sample.expired
           (snd (refresh_attempt Sample.rt_rejected "shop.example.com" "client-1"
                   (Sample.held 990) (tick Sample.expired)))
           (Sample.held 990) (inl (Error "Token refresh failed: 400 - invalid_grant"))).
  - vm_compute. reflexivity.
  - vm_compute. reflexivity.
  - vm_compute. reflexivity.
Defined.
